(** * FileMap: a shared file mapping (libutils/jni/FileMap.cpp)

    A shallow embedding of [android::FileMap] as the preprocessor leaves it
    on a POSIX target (neither [__MINGW32__] nor [_WIN32] defined), together
    with the [_WIN32] variant of [advise].  The class as the [__MINGW32__]
    build has it is in [Mingw32], and [create] as a build with [NDEBUG]
    has it is [create_NDEBUG].

    - C++ objects live in a store indexed by their location, so that the
      references [this] and [other] of the move operations may alias.
    - The operating system and the C library are an environment: a record
      of reply functions that see the history of calls made so far.  Every
      call is appended to a trace, and the live mappings and live heap
      blocks are tracked beside it.
    - Integers are [Z] with the wrap-around of their C type written out.
    - [assert] is the <assert.h> macro; the file does not define [NDEBUG],
      so a failed assertion aborts the process.  Whether the build defines
      it is not in the file: [create_NDEBUG] is the function with the
      assertions compiled out. *)

From Stdlib Require Import ZArith String List Lia.
From stdpp Require Import base option gmap strings.

Local Open Scope Z_scope.

(** ** Machine integers and pointers *)

(** The two POSIX data models the file is built for: [int] has 32 bits and
    [off64_t] 64 bits in both; [long], [size_t] and pointers have
    [size_bits]. *)
Inductive Abi := ILP32 | LP64.

Definition size_bits (abi : Abi) : Z :=
  match abi with ILP32 => 32 | LP64 => 64 end.

Definition size_modulus (abi : Abi) : Z := 2 ^ size_bits abi.

(** Conversion to [size_t]: reduction modulo [2 ^ size_bits]. *)
Definition to_size (abi : Abi) (z : Z) : Z := z mod size_modulus abi.

(** Conversion to [int]: two's complement on 32 bits. *)
Definition to_int (z : Z) : Z := (z + 2 ^ 31) mod 2 ^ 32 - 2 ^ 31.

Definition OFF64_MIN : Z := - 2 ^ 63.
Definition OFF64_MAX : Z := 2 ^ 63 - 1.

Definition NULL : Z := 0.

(** [(void * ) -1]. *)
Definition MAP_FAILED (abi : Abi) : Z := size_modulus abi - 1.

(** [(char * ) p + n] in a flat address space. *)
Definition ptr_add (abi : Abi) (p n : Z) : Z := (p + n) mod size_modulus abi.

(** <sys/mman.h> (Linux values). *)
Definition PROT_READ : Z := 1.
Definition PROT_WRITE : Z := 2.
Definition MAP_SHARED : Z := 1.

Inductive SysAdvice :=
  MADV_NORMAL | MADV_RANDOM | MADV_SEQUENTIAL | MADV_WILLNEED | MADV_DONTNEED.

(** ** The class *)

(** The data members, in the order of the move constructor's initialiser
    list.  [mFileName] is a [char *], [mBasePtr] and [mDataPtr] are
    [void *], [mBaseLength] and [mDataLength] are [size_t], [mDataOffset]
    is an [off64_t]. *)
Record FileMap := mkFileMap {
  mFileName : Z;
  mBasePtr : Z;
  mBaseLength : Z;
  mDataOffset : Z;
  mDataPtr : Z;
  mDataLength : Z
}.

Definition set_mFileName (v : Z) (m : FileMap) : FileMap :=
  mkFileMap v (mBasePtr m) (mBaseLength m) (mDataOffset m) (mDataPtr m) (mDataLength m).
Definition set_mBasePtr (v : Z) (m : FileMap) : FileMap :=
  mkFileMap (mFileName m) v (mBaseLength m) (mDataOffset m) (mDataPtr m) (mDataLength m).
Definition set_mBaseLength (v : Z) (m : FileMap) : FileMap :=
  mkFileMap (mFileName m) (mBasePtr m) v (mDataOffset m) (mDataPtr m) (mDataLength m).
Definition set_mDataOffset (v : Z) (m : FileMap) : FileMap :=
  mkFileMap (mFileName m) (mBasePtr m) (mBaseLength m) v (mDataPtr m) (mDataLength m).
Definition set_mDataPtr (v : Z) (m : FileMap) : FileMap :=
  mkFileMap (mFileName m) (mBasePtr m) (mBaseLength m) (mDataOffset m) v (mDataLength m).
Definition set_mDataLength (v : Z) (m : FileMap) : FileMap :=
  mkFileMap (mFileName m) (mBasePtr m) (mBaseLength m) (mDataOffset m) (mDataPtr m) v.

(** The enumeration [FileMap::MapAdvice] is declared in utils/FileMap.h; its
    five enumerators are the case labels of [advise].  [OTHER_ADVICE] stands
    for any other value of the enumeration's underlying type, which the
    [default] label receives. *)
Inductive MapAdvice :=
  NORMAL | RANDOM | SEQUENTIAL | WILLNEED | DONTNEED | OTHER_ADVICE (v : Z).

(** ** The process and its environment *)

(** Diagnostics of utils/Log.h: a sink that never influences control. *)
Inductive LogMsg :=
| LOGE_pagesize                                  (* "could not get _SC_PAGESIZE" *)
| LOGE_mmap (adjOffset adjLength : Z)            (* "mmap(%lld,%zu) failed: %s" *)
| LOGV_map (base baseLen data dataLen : Z)       (* "MAP: base %p/%zu data %p/%zu" *)
| LOGW_madvise (sysAdvice : SysAdvice).          (* "madvise(%d) failed: %s" *)

Inductive Event :=
| Sysconf (res : Z)
| Mmap (len prot flags fd off res : Z)
| Munmap (addr len rc : Z)
| Madvise (addr len : Z) (sysAdvice : SysAdvice) (rc : Z)
| Strdup (s : string) (res : Z)
| Free (p : Z)
| Log (msg : LogMsg)
| AssertionFailed.

(** Replies of the system, each a function of the calls made so far. *)
Record OS := mkOS {
  sysconf_SC_PAGESIZE : list Event → Z;
  mmap : list Event → Z → Z → Z → Z → Z → Z;
  munmap : list Event → Z → Z → Z;
  madvise : list Event → Z → Z → SysAdvice → Z;
  strdup : list Event → string → Z
}.

(** [mPageSize] is the static member; [objs] holds the live [FileMap]
    objects by location; [maps] the live mappings (start address to
    length); [heap] the live blocks handed out by [strdup]. *)
Record World := mkWorld {
  mPageSize : Z;
  objs : gmap nat FileMap;
  maps : gmap Z Z;
  heap : gmap Z string;
  trace : list Event
}.

(** [long FileMap::mPageSize = -1;] and nothing else alive. *)
Definition initial_world : World := mkWorld (-1) ∅ ∅ ∅ [].

(** How a call ends: it returns, the process aborts on a failed assertion,
    or the behaviour is undefined (division by zero, signed overflow, a
    member access through a dead object). *)
Inductive Outcome (A : Type) :=
| Ret (a : A) (w : World)
| Aborted (w : World)
| Undef.
Arguments Ret {A} a w.
Arguments Aborted {A} w.
Arguments Undef {A}.

Definition M (A : Type) : Type := World → Outcome A.

#[global] Instance M_ret : MRet M := λ A a w, Ret a w.
#[global] Instance M_bind : MBind M := λ A B f c w,
  match c w with
  | Ret a w' => f a w'
  | Aborted w' => Aborted w'
  | Undef => Undef
  end.

Definition emit (e : Event) : M unit := λ w,
  Ret tt (mkWorld (mPageSize w) (objs w) (maps w) (heap w) (trace w ++ [e])).

Definition assert_ (b : bool) : M unit := λ w,
  if b then Ret tt w
  else Aborted (mkWorld (mPageSize w) (objs w) (maps w) (heap w) (trace w ++ [AssertionFailed])).

Definition undefined {A} : M A := λ _, Undef.

Definition LOG (msg : LogMsg) : M unit := emit (Log msg).

(** *** Object memory *)

Definition load {A} (obj : nat) (field : FileMap → A) : M A := λ w,
  match objs w !! obj with
  | Some m => Ret (field m) w
  | None => Undef
  end.

Definition store (obj : nat) (upd : FileMap → FileMap) : M unit := λ w,
  match objs w !! obj with
  | Some m => Ret tt (mkWorld (mPageSize w) (<[obj := upd m]> (objs w)) (maps w) (heap w) (trace w))
  | None => Undef
  end.

(** Begin and end of an object's lifetime at a location. *)
Definition construct (obj : nat) (m : FileMap) : M unit := λ w,
  Ret tt (mkWorld (mPageSize w) (<[obj := m]> (objs w)) (maps w) (heap w) (trace w)).

Definition destruct_ (obj : nat) : M unit := λ w,
  Ret tt (mkWorld (mPageSize w) (delete obj (objs w)) (maps w) (heap w) (trace w)).

Definition read_mPageSize : M Z := λ w, Ret (mPageSize w) w.

Definition write_mPageSize (v : Z) : M unit := λ w,
  Ret tt (mkWorld v (objs w) (maps w) (heap w) (trace w)).

(** *** System calls *)

Section Calls.
Context (os : OS) (abi : Abi).

Definition sys_sysconf : M Z := λ w,
  let res := sysconf_SC_PAGESIZE os (trace w) in
  Ret res (mkWorld (mPageSize w) (objs w) (maps w) (heap w) (trace w ++ [Sysconf res])).

(** [mmap(NULL, len, prot, flags, fd, off)]: a reply other than
    [MAP_FAILED] is the start of a new live mapping of [len] bytes. *)
Definition sys_mmap (len prot flags fd off : Z) : M Z := λ w,
  let res := mmap os (trace w) len prot flags fd off in
  Ret res (mkWorld (mPageSize w) (objs w)
             (if res =? MAP_FAILED abi then maps w else <[res := len]> (maps w))
             (heap w) (trace w ++ [Mmap len prot flags fd off res])).

(** [munmap(addr, len)]: reply [0] ends the mapping that starts at [addr]. *)
Definition sys_munmap (addr len : Z) : M Z := λ w,
  let rc := munmap os (trace w) addr len in
  Ret rc (mkWorld (mPageSize w) (objs w)
            (if rc =? 0 then delete addr (maps w) else maps w)
            (heap w) (trace w ++ [Munmap addr len rc])).

Definition sys_madvise (addr len : Z) (sysAdvice : SysAdvice) : M Z := λ w,
  let rc := madvise os (trace w) addr len sysAdvice in
  Ret rc (mkWorld (mPageSize w) (objs w) (maps w) (heap w)
            (trace w ++ [Madvise addr len sysAdvice rc])).

(** [strdup(s)]: a reply other than [NULL] is a new heap block holding a
    copy of [s]. *)
Definition sys_strdup (s : string) : M Z := λ w,
  let res := strdup os (trace w) s in
  Ret res (mkWorld (mPageSize w) (objs w) (maps w)
             (if res =? NULL then heap w else <[res := s]> (heap w))
             (trace w ++ [Strdup s res])).

Definition sys_free (p : Z) : M unit := λ w,
  Ret tt (mkWorld (mPageSize w) (objs w) (maps w) (delete p (heap w))
            (trace w ++ [Free p])).

(** *** Arithmetic that may be undefined *)

(** [a % b] on [off64_t] and [long]: truncated remainder. *)
Definition c_rem (a b : Z) : M Z :=
  if b =? 0 then undefined else mret (Z.rem a b).

(** [a - b] on [off64_t]. *)
Definition c_sub_off64 (a b : Z) : M Z :=
  if (OFF64_MIN <=? a - b) && (a - b <=? OFF64_MAX) then mret (a - b) else undefined.

(** ** Member functions *)

(** Constructor (lines 47-59).  [mDataOffset] has no initialiser: it keeps
    the indeterminate value [indet] found in the storage. *)
Definition FileMap_ctor (this : nat) (indet : Z) : M unit :=
  construct this (mkFileMap NULL NULL 0 indet NULL 0).

(** Move constructor (lines 62-76). *)
Definition FileMap_move_ctor (this other : nat) : M unit :=
  fileName ← load other mFileName;
  basePtr ← load other mBasePtr;
  baseLength ← load other mBaseLength;
  dataOffset ← load other mDataOffset;
  dataPtr ← load other mDataPtr;
  dataLength ← load other mDataLength;
  construct this (mkFileMap fileName basePtr baseLength dataOffset dataPtr dataLength);;
  store other (set_mFileName NULL);;
  store other (set_mBasePtr NULL);;
  store other (set_mDataPtr NULL).

(** Move assignment (lines 79-96). *)
Definition FileMap_move_assign (this other : nat) : M unit :=
  v ← load other mFileName; store this (set_mFileName v);;
  v ← load other mBasePtr; store this (set_mBasePtr v);;
  v ← load other mBaseLength; store this (set_mBaseLength v);;
  v ← load other mDataOffset; store this (set_mDataOffset v);;
  v ← load other mDataPtr; store this (set_mDataPtr v);;
  v ← load other mDataLength; store this (set_mDataLength v);;
  store other (set_mFileName NULL);;
  store other (set_mBasePtr NULL);;
  store other (set_mDataPtr NULL).

(** Destructor (lines 99-116).  The diagnostic of a failed [munmap] is
    commented out in the source. *)
Definition FileMap_dtor (this : nat) : M unit :=
  fileName ← load this mFileName;
  (if negb (fileName =? NULL) then sys_free fileName else mret tt);;
  basePtr ← load this mBasePtr;
  (if negb (basePtr =? NULL)
   then baseLength ← load this mBaseLength;
        rc ← sys_munmap basePtr baseLength;
        if negb (rc =? 0) then mret tt else mret tt
   else mret tt);;
  destruct_ this.

(** [create] (lines 125-215, the branch for [!defined(__MINGW32__)]). *)
Definition create (this : nat) (origFileName : option string)
    (fd offset length : Z) (readOnly : bool) : M bool :=
  assert_ (0 <=? fd);;
  assert_ (0 <=? offset);;
  assert_ (0 <? length);;
  (* init on first use *)
  pageSize ← read_mPageSize;
  resolved ← (if pageSize =? -1
              then res ← sys_sysconf;
                   write_mPageSize res;;
                   pageSize ← read_mPageSize;
                   if pageSize =? -1
                   then LOG LOGE_pagesize;; mret false
                   else mret true
              else mret true);
  if negb resolved then mret false else
  pageSize ← read_mPageSize;
  r ← c_rem offset pageSize;
  let adjust := to_int r in
  adjOffset ← c_sub_off64 offset adjust;
  let adjLength := to_size abi (length + adjust) in
  let flags := MAP_SHARED in
  let prot := if readOnly then PROT_READ else Z.lor PROT_READ PROT_WRITE in
  ptr ← sys_mmap adjLength prot flags fd adjOffset;
  if ptr =? MAP_FAILED abi
  then LOG (LOGE_mmap adjOffset adjLength);; mret false
  else
  store this (set_mBasePtr ptr);;
  fileName ← match origFileName with
             | Some s => sys_strdup s
             | None => mret NULL
             end;
  store this (set_mFileName fileName);;
  store this (set_mBaseLength adjLength);;
  store this (set_mDataOffset offset);;
  basePtr ← load this mBasePtr;
  store this (set_mDataPtr (ptr_add abi basePtr adjust));;
  store this (set_mDataLength length);;
  basePtr ← load this mBasePtr;
  assert_ (negb (basePtr =? NULL));;
  baseLength ← load this mBaseLength;
  dataPtr ← load this mDataPtr;
  dataLength ← load this mDataLength;
  LOG (LOGV_map basePtr baseLength dataPtr dataLength);;
  mret true.

(** The [switch] of [advise]: the platform constant of each label, [None]
    at [default]. *)
Definition sysAdvice_of (advice : MapAdvice) : option SysAdvice :=
  match advice with
  | NORMAL => Some MADV_NORMAL
  | RANDOM => Some MADV_RANDOM
  | SEQUENTIAL => Some MADV_SEQUENTIAL
  | WILLNEED => Some MADV_WILLNEED
  | DONTNEED => Some MADV_DONTNEED
  | OTHER_ADVICE _ => None
  end.

(** [advise] (lines 220-248, [!defined(_WIN32)]). *)
Definition advise (this : nat) (advice : MapAdvice) : M Z :=
  match sysAdvice_of advice with
  | None => assert_ false;; mret (-1)
  | Some sysAdvice =>
      basePtr ← load this mBasePtr;
      baseLength ← load this mBaseLength;
      cc ← sys_madvise basePtr baseLength sysAdvice;
      (if negb (cc =? 0) then LOG (LOGW_madvise sysAdvice) else mret tt);;
      mret cc
  end.

(** [advise] (lines 252-255, [defined(_WIN32)]). *)
Definition advise_WIN32 (this : nat) (advice : MapAdvice) : M Z :=
  mret (-1).

End Calls.

(** ** What the claims speak about *)

(** A mapping is leaked when it is live and no live object holds its start
    address in [mBasePtr]; a heap block is leaked when no object holds it in
    [mFileName]. *)
Definition leaked_mapping (w : World) (addr : Z) : Prop :=
  is_Some (maps w !! addr) ∧
  ∀ obj m, objs w !! obj = Some m → mBasePtr m ≠ addr.

Definition leaked_block (w : World) (p : Z) : Prop :=
  is_Some (heap w !! p) ∧
  ∀ obj m, objs w !! obj = Some m → mFileName m ≠ p.

(** The state a moved-from object is left in: the three pointers are null,
    the lengths and the offset are those of [m]. *)
Definition moved_from (m : FileMap) : FileMap :=
  mkFileMap NULL NULL (mBaseLength m) (mDataOffset m) NULL (mDataLength m).

(** The page size [create] works with in [w], and the trace once it is
    known: the cached value, or the reply of [sysconf] when the cache holds
    [-1]. *)
Definition resolved_page_size (os : OS) (w : World) : Z :=
  if mPageSize w =? -1 then sysconf_SC_PAGESIZE os (trace w) else mPageSize w.

Definition trace_after_discovery (os : OS) (w : World) : list Event :=
  if mPageSize w =? -1
  then trace w ++ [Sysconf (sysconf_SC_PAGESIZE os (trace w))]
  else trace w.

(** The trace a call left behind, when it left the process in a defined
    state. *)
Definition final_trace {A} (o : Outcome A) : option (list Event) :=
  match o with
  | Ret _ w => Some (trace w)
  | Aborted w => Some (trace w)
  | Undef => None
  end.

(** The destructor of [obj] called nothing: no event was added, every
    mapping and heap block is as before, and only [obj] is gone. *)
Definition dtor_released_nothing (os : OS) (w : World) (obj : nat) : Prop :=
  ∃ w', FileMap_dtor os obj w = Ret tt w' ∧
        trace w' = trace w ∧ maps w' = maps w ∧ heap w' = heap w ∧
        objs w' = delete obj (objs w).

(** [m'] is [m] with exactly the three pointers reset. *)
Definition pointers_reset (m m' : FileMap) : Prop :=
  mFileName m' = NULL ∧ mBasePtr m' = NULL ∧ mDataPtr m' = NULL ∧
  mBaseLength m' = mBaseLength m ∧ mDataOffset m' = mDataOffset m ∧
  mDataLength m' = mDataLength m.

(** A concrete system: a page size of 4096, a fresh page-aligned address for
    every mapping, a fresh block for every [strdup], and calls that
    succeed. *)
Definition posix_os : OS :=
  mkOS (λ _, 4096)
       (λ t _ _ _ _ _, 4096 * (16 + Z.of_nat (length t)))
       (λ _ _ _, 0)
       (λ _ _ _ _, 0)
       (λ t _, 16 * (1 + Z.of_nat (length t))).

(** Two objects at locations 0 and 1, each holding a mapping of its own. *)
Definition two_maps : M bool :=
  FileMap_ctor 0 0;;
  create posix_os LP64 0 (Some "a.apk"%string) 3 0 100 true;;
  FileMap_ctor 1 0;;
  create posix_os LP64 1 (Some "b.apk"%string) 4 4100 50 true.

(** The world they leave behind when run from [initial_world]. *)
Definition two_maps_world : World :=
  mkWorld 4096
    (<[1%nat := mkFileMap 96 81920 54 4100 81924 50]>
       (<[0%nat := mkFileMap 48 69632 100 0 69632 100]> ∅))
    (<[81920 := 54]> (<[69632 := 100]> ∅))
    (<[96 := "b.apk"%string]> (<[48 := "a.apk"%string]> ∅))
    [Sysconf 4096;
     Mmap 100 1 1 3 0 69632; Strdup "a.apk" 48; Log (LOGV_map 69632 100 69632 100);
     Mmap 54 1 1 4 4096 81920; Strdup "b.apk" 96; Log (LOGV_map 81920 54 81924 50)].

(** The reading of the claim that [create] is guarded against a second
    creation: on an object whose [mBasePtr] is not null it never returns
    [true]. *)
Definition create_guards_double_creation : Prop :=
  ∀ os abi this origFileName fd offset length readOnly w m w',
    objs w !! this = Some m → mBasePtr m ≠ NULL →
    create os abi this origFileName fd offset length readOnly w ≠ Ret true w'.

(** [w] with the object at [this] holding [m]. *)
Definition with_object (w : World) (this : nat) (m : FileMap) : World :=
  mkWorld (mPageSize w) (<[this := m]> (objs w)) (maps w) (heap w) (trace w).

(** Two outcomes of [create] on [this] that cannot be told apart: the same
    return value, the same calls, the same mappings, heap blocks and cached
    page size; the same objects where the fields of [this] were written,
    and the objects from before the call where they were not. *)
Definition same_outcome (this : nat) (before1 before2 : World)
    (o1 o2 : Outcome bool) : Prop :=
  match o1, o2 with
  | Ret b1 w1, Ret b2 w2 =>
      b1 = b2 ∧ trace w1 = trace w2 ∧ maps w1 = maps w2 ∧ heap w1 = heap w2 ∧
      mPageSize w1 = mPageSize w2 ∧
      if b1 then objs w1 = objs w2 ∧ is_Some (objs w1 !! this)
      else objs w1 = objs before1 ∧ objs w2 = objs before2
  | Aborted w1, Aborted w2 =>
      trace w1 = trace w2 ∧ maps w1 = maps w2 ∧ heap w1 = heap w2 ∧
      mPageSize w1 = mPageSize w2
  | Undef, Undef => True
  | _, _ => False
  end.

(** [advise] with [advice] is one call of [madvise] on ([mBasePtr],
    [mBaseLength]) with the constant [sysAdvice]; its reply is returned, a
    reply other than 0 is logged, and nothing else changes. *)
Definition advise_is_madvise (os : OS) (this : nat) (w : World) (m : FileMap)
    (advice : MapAdvice) (sysAdvice : SysAdvice) : Prop :=
  ∃ rc w',
    rc = madvise os (trace w) (mBasePtr m) (mBaseLength m) sysAdvice ∧
    advise os this advice w = Ret rc w' ∧
    trace w' = trace w
               ++ Madvise (mBasePtr m) (mBaseLength m) sysAdvice rc
                  :: (if rc =? 0 then [] else [Log (LOGW_madvise sysAdvice)]) ∧
    objs w' = objs w ∧ maps w' = maps w ∧ heap w' = heap w ∧
    mPageSize w' = mPageSize w.

(** The two objects of [two_maps_world]. *)
Definition object_a : FileMap := mkFileMap 48 69632 100 0 69632 100.
Definition object_b : FileMap := mkFileMap 96 81920 54 4100 81924 50.

(** A system whose first [sysconf] fails, and one whose [mmap] fails. *)
Definition late_page_size_os : OS :=
  mkOS (λ t, match t with [] => -1 | _ => 4096 end)
       (mmap posix_os) (munmap posix_os) (madvise posix_os) (strdup posix_os).

Definition no_mapping_os : OS :=
  mkOS (sysconf_SC_PAGESIZE posix_os) (λ _ _ _ _ _ _, MAP_FAILED LP64)
       (munmap posix_os) (madvise posix_os) (strdup posix_os).

(** One empty object at location 0, as [FileMap_ctor 0 0] leaves it in the
    initial world. *)
Definition one_empty_world : World :=
  mkWorld (-1) (<[0%nat := mkFileMap NULL NULL 0 0 NULL 0]> ∅) ∅ ∅ [].

(** ** More vocabulary: what a call left behind and what it called *)

(** The world a call left behind, when it left the process in a defined
    state. *)
Definition final_world {A} (o : Outcome A) : option World :=
  match o with
  | Ret _ w => Some w
  | Aborted w => Some w
  | Undef => None
  end.

Definition is_Sysconf (e : Event) : bool :=
  match e with Sysconf _ => true | _ => false end.
Definition is_Mmap (e : Event) : bool :=
  match e with Mmap _ _ _ _ _ _ => true | _ => false end.
Definition is_Strdup (e : Event) : bool :=
  match e with Strdup _ _ => true | _ => false end.

(** The calls that give something back to the system, or advise it. *)
Definition is_release_or_advice (e : Event) : bool :=
  match e with
  | Munmap _ _ _ | Free _ | Madvise _ _ _ _ => true
  | _ => false
  end.

Definition count_events (p : Event → bool) (evs : list Event) : nat :=
  length (List.filter p evs).

Definition is_Log (e : Event) : bool :=
  match e with Log _ => true | _ => false end.

(** The ownership discipline of the class: a non-null [mBasePtr] is the
    start of a live mapping of [mBaseLength] bytes, and no two objects hold
    the same mapping. *)
Definition owns_live_mappings (w : World) : Prop :=
  ∀ obj m, objs w !! obj = Some m → mBasePtr m ≠ NULL →
           maps w !! mBasePtr m = Some (mBaseLength m).

Definition no_shared_mapping (w : World) : Prop :=
  ∀ obj1 obj2 m1 m2,
    objs w !! obj1 = Some m1 → objs w !! obj2 = Some m2 →
    mBasePtr m1 ≠ NULL → mBasePtr m1 = mBasePtr m2 → obj1 = obj2.

Definition ownership_invariant (w : World) : Prop :=
  owns_live_mappings w ∧ no_shared_mapping w.

(** ** The [__MINGW32__] build

    The same class as the preprocessor leaves it when [__MINGW32__] (and
    with it [_WIN32]) is defined: two more data members, the Windows file
    mapping calls in place of [mmap] and [munmap], and the [advise] that
    does nothing.  [int], [long] and [DWORD] have 32 bits, [off64_t] 64;
    [size_t], pointers and [HANDLE] have [win_bits]. *)
Module Mingw32.

Inductive Abi := Win32 | Win64.

Definition win_bits (abi : Abi) : Z :=
  match abi with Win32 => 32 | Win64 => 64 end.

Definition win_modulus (abi : Abi) : Z := 2 ^ win_bits abi.

Definition to_size (abi : Abi) (z : Z) : Z := z mod win_modulus abi.

(** Conversion to [DWORD]. *)
Definition to_DWORD (z : Z) : Z := z mod 2 ^ 32.

Definition ptr_add (abi : Abi) (p n : Z) : Z := (p + n) mod win_modulus abi.

(** [(HANDLE) -1]. *)
Definition INVALID_HANDLE_VALUE (abi : Abi) : Z := win_modulus abi - 1.

(** <winnt.h> and <memoryapi.h>. *)
Definition PAGE_READONLY : Z := 2.
Definition PAGE_READWRITE : Z := 4.
Definition FILE_MAP_READ : Z := 4.
Definition FILE_MAP_ALL_ACCESS : Z := 983071.

(** The data members: those of the POSIX build, then [mFileHandle] and
    [mFileMapping], both of type [HANDLE]. *)
Record FileMap := mkFileMap {
  mFileName : Z;
  mBasePtr : Z;
  mBaseLength : Z;
  mDataOffset : Z;
  mDataPtr : Z;
  mDataLength : Z;
  mFileHandle : Z;
  mFileMapping : Z
}.

Definition set_mFileName (v : Z) (m : FileMap) : FileMap :=
  mkFileMap v (mBasePtr m) (mBaseLength m) (mDataOffset m) (mDataPtr m)
            (mDataLength m) (mFileHandle m) (mFileMapping m).
Definition set_mBasePtr (v : Z) (m : FileMap) : FileMap :=
  mkFileMap (mFileName m) v (mBaseLength m) (mDataOffset m) (mDataPtr m)
            (mDataLength m) (mFileHandle m) (mFileMapping m).
Definition set_mBaseLength (v : Z) (m : FileMap) : FileMap :=
  mkFileMap (mFileName m) (mBasePtr m) v (mDataOffset m) (mDataPtr m)
            (mDataLength m) (mFileHandle m) (mFileMapping m).
Definition set_mDataOffset (v : Z) (m : FileMap) : FileMap :=
  mkFileMap (mFileName m) (mBasePtr m) (mBaseLength m) v (mDataPtr m)
            (mDataLength m) (mFileHandle m) (mFileMapping m).
Definition set_mDataPtr (v : Z) (m : FileMap) : FileMap :=
  mkFileMap (mFileName m) (mBasePtr m) (mBaseLength m) (mDataOffset m) v
            (mDataLength m) (mFileHandle m) (mFileMapping m).
Definition set_mDataLength (v : Z) (m : FileMap) : FileMap :=
  mkFileMap (mFileName m) (mBasePtr m) (mBaseLength m) (mDataOffset m) (mDataPtr m)
            v (mFileHandle m) (mFileMapping m).
Definition set_mFileHandle (v : Z) (m : FileMap) : FileMap :=
  mkFileMap (mFileName m) (mBasePtr m) (mBaseLength m) (mDataOffset m) (mDataPtr m)
            (mDataLength m) v (mFileMapping m).
Definition set_mFileMapping (v : Z) (m : FileMap) : FileMap :=
  mkFileMap (mFileName m) (mBasePtr m) (mBaseLength m) (mDataOffset m) (mDataPtr m)
            (mDataLength m) (mFileHandle m) v.

Inductive LogMsg :=
| LOGE_CreateFileMapping (hFile protect : Z)   (* "CreateFileMapping(%p, %lx) failed with error %lu" *)
| LOGE_MapViewOfFile (adjOffset adjLength : Z) (* "MapViewOfFile(%I64d, %zu) failed with error %lu" *)
| LOGD_UnmapViewOfFile (addr : Z)              (* "UnmapViewOfFile(%p) failed, error = %lu" *)
| LOGV_map (base baseLen data dataLen : Z).    (* "MAP: base %p/%zu data %p/%zu" *)

Inductive Event :=
| GetSystemInfo (dwAllocationGranularity : Z)
| Get_osfhandle (fd res : Z)
| CreateFileMapping (hFile protect res : Z)
| MapViewOfFile (hMap access offHigh offLow len res : Z)
| UnmapViewOfFile (addr rc : Z)
| CloseHandle (h : Z)
| Strdup (s : string) (res : Z)
| Free (p : Z)
| Log (msg : LogMsg)
| AssertionFailed.

(** Replies of Windows and of the C runtime, each a function of the calls
    made so far. *)
Record OS := mkOS {
  dwAllocationGranularity : list Event → Z;
  get_osfhandle : list Event → Z → Z;
  createFileMapping : list Event → Z → Z → Z;
  mapViewOfFile : list Event → Z → Z → Z → Z → Z → Z;
  unmapViewOfFile : list Event → Z → Z;
  strdup : list Event → string → Z
}.

(** [views] holds the live views (start address to the length asked for),
    [handles] the open file-mapping handles (with the file handle each was
    made from). *)
Record World := mkWorld {
  mPageSize : Z;
  objs : gmap nat FileMap;
  views : gmap Z Z;
  handles : gmap Z Z;
  heap : gmap Z string;
  trace : list Event
}.

Definition initial_world : World := mkWorld (-1) ∅ ∅ ∅ ∅ [].

Inductive Outcome (A : Type) :=
| Ret (a : A) (w : World)
| Aborted (w : World)
| Undef.
Arguments Ret {A} a w.
Arguments Aborted {A} w.
Arguments Undef {A}.

Definition M (A : Type) : Type := World → Outcome A.

#[global] Instance M_ret : MRet M := λ A a w, Ret a w.
#[global] Instance M_bind : MBind M := λ A B f c w,
  match c w with
  | Ret a w' => f a w'
  | Aborted w' => Aborted w'
  | Undef => Undef
  end.

Definition emit (e : Event) : M unit := λ w,
  Ret tt (mkWorld (mPageSize w) (objs w) (views w) (handles w) (heap w)
            (trace w ++ [e])).

Definition assert_ (b : bool) : M unit := λ w,
  if b then Ret tt w
  else Aborted (mkWorld (mPageSize w) (objs w) (views w) (handles w) (heap w)
                  (trace w ++ [AssertionFailed])).

Definition undefined {A} : M A := λ _, Undef.

Definition LOG (msg : LogMsg) : M unit := emit (Log msg).

Definition load {A} (obj : nat) (field : FileMap → A) : M A := λ w,
  match objs w !! obj with
  | Some m => Ret (field m) w
  | None => Undef
  end.

Definition store (obj : nat) (upd : FileMap → FileMap) : M unit := λ w,
  match objs w !! obj with
  | Some m => Ret tt (mkWorld (mPageSize w) (<[obj := upd m]> (objs w)) (views w)
                        (handles w) (heap w) (trace w))
  | None => Undef
  end.

Definition construct (obj : nat) (m : FileMap) : M unit := λ w,
  Ret tt (mkWorld (mPageSize w) (<[obj := m]> (objs w)) (views w) (handles w)
            (heap w) (trace w)).

Definition destruct_ (obj : nat) : M unit := λ w,
  Ret tt (mkWorld (mPageSize w) (delete obj (objs w)) (views w) (handles w)
            (heap w) (trace w)).

Definition read_mPageSize : M Z := λ w, Ret (mPageSize w) w.

Definition write_mPageSize (v : Z) : M unit := λ w,
  Ret tt (mkWorld v (objs w) (views w) (handles w) (heap w) (trace w)).

Section Calls.
Context (os : OS) (abi : Abi).

(** [GetSystemInfo(&si)], read at [si.dwAllocationGranularity]. *)
Definition sys_GetSystemInfo : M Z := λ w,
  let res := dwAllocationGranularity os (trace w) in
  Ret res (mkWorld (mPageSize w) (objs w) (views w) (handles w) (heap w)
             (trace w ++ [GetSystemInfo res])).

Definition sys_get_osfhandle (fd : Z) : M Z := λ w,
  let res := get_osfhandle os (trace w) fd in
  Ret res (mkWorld (mPageSize w) (objs w) (views w) (handles w) (heap w)
             (trace w ++ [Get_osfhandle fd res])).

(** [CreateFileMapping(hFile, NULL, protect, 0, 0, NULL)]: a reply other
    than [NULL] is a newly opened handle. *)
Definition sys_CreateFileMapping (hFile protect : Z) : M Z := λ w,
  let res := createFileMapping os (trace w) hFile protect in
  Ret res (mkWorld (mPageSize w) (objs w) (views w)
             (if res =? NULL then handles w else <[res := hFile]> (handles w))
             (heap w) (trace w ++ [CreateFileMapping hFile protect res])).

(** [MapViewOfFile(hMap, access, offHigh, offLow, len)]: a reply other than
    [NULL] is the start of a new live view. *)
Definition sys_MapViewOfFile (hMap access offHigh offLow len : Z) : M Z := λ w,
  let res := mapViewOfFile os (trace w) hMap access offHigh offLow len in
  Ret res (mkWorld (mPageSize w) (objs w)
             (if res =? NULL then views w else <[res := len]> (views w))
             (handles w) (heap w)
             (trace w ++ [MapViewOfFile hMap access offHigh offLow len res])).

(** [UnmapViewOfFile(addr)]: a reply other than [0] ends the view that
    starts at [addr]. *)
Definition sys_UnmapViewOfFile (addr : Z) : M Z := λ w,
  let rc := unmapViewOfFile os (trace w) addr in
  Ret rc (mkWorld (mPageSize w) (objs w)
            (if rc =? 0 then views w else delete addr (views w))
            (handles w) (heap w) (trace w ++ [UnmapViewOfFile addr rc])).

(** [CloseHandle(h)], whose reply the code never reads. *)
Definition sys_CloseHandle (h : Z) : M unit := λ w,
  Ret tt (mkWorld (mPageSize w) (objs w) (views w) (delete h (handles w))
            (heap w) (trace w ++ [CloseHandle h])).

Definition sys_strdup (s : string) : M Z := λ w,
  let res := strdup os (trace w) s in
  Ret res (mkWorld (mPageSize w) (objs w) (views w) (handles w)
             (if res =? NULL then heap w else <[res := s]> (heap w))
             (trace w ++ [Strdup s res])).

Definition sys_free (p : Z) : M unit := λ w,
  Ret tt (mkWorld (mPageSize w) (objs w) (views w) (handles w)
            (delete p (heap w)) (trace w ++ [Free p])).

(** [a % b] on [off64_t] and [long]: undefined for [b == 0] and where the
    quotient overflows. *)
Definition c_rem (a b : Z) : M Z :=
  if (b =? 0) || ((a =? OFF64_MIN) && (b =? -1)) then undefined
  else mret (Z.rem a b).

Definition c_sub_off64 (a b : Z) : M Z :=
  if (OFF64_MIN <=? a - b) && (a - b <=? OFF64_MAX) then mret (a - b) else undefined.

(** Constructor (lines 47-59). *)
Definition FileMap_ctor (this : nat) (indet : Z) : M unit :=
  construct this (mkFileMap NULL NULL 0 indet NULL 0 (INVALID_HANDLE_VALUE abi) NULL).

(** Move constructor (lines 62-76). *)
Definition FileMap_move_ctor (this other : nat) : M unit :=
  fileName ← load other mFileName;
  basePtr ← load other mBasePtr;
  baseLength ← load other mBaseLength;
  dataOffset ← load other mDataOffset;
  dataPtr ← load other mDataPtr;
  dataLength ← load other mDataLength;
  fileHandle ← load other mFileHandle;
  fileMapping ← load other mFileMapping;
  construct this (mkFileMap fileName basePtr baseLength dataOffset dataPtr
                    dataLength fileHandle fileMapping);;
  store other (set_mFileName NULL);;
  store other (set_mBasePtr NULL);;
  store other (set_mDataPtr NULL);;
  store other (set_mFileHandle (INVALID_HANDLE_VALUE abi));;
  store other (set_mFileMapping NULL).

(** Move assignment (lines 79-96). *)
Definition FileMap_move_assign (this other : nat) : M unit :=
  v ← load other mFileName; store this (set_mFileName v);;
  v ← load other mBasePtr; store this (set_mBasePtr v);;
  v ← load other mBaseLength; store this (set_mBaseLength v);;
  v ← load other mDataOffset; store this (set_mDataOffset v);;
  v ← load other mDataPtr; store this (set_mDataPtr v);;
  v ← load other mDataLength; store this (set_mDataLength v);;
  store other (set_mFileName NULL);;
  store other (set_mBasePtr NULL);;
  store other (set_mDataPtr NULL);;
  v ← load other mFileHandle; store this (set_mFileHandle v);;
  v ← load other mFileMapping; store this (set_mFileMapping v);;
  store other (set_mFileHandle (INVALID_HANDLE_VALUE abi));;
  store other (set_mFileMapping NULL).

(** Destructor (lines 99-116). *)
Definition FileMap_dtor (this : nat) : M unit :=
  fileName ← load this mFileName;
  (if negb (fileName =? NULL) then sys_free fileName else mret tt);;
  basePtr ← load this mBasePtr;
  (if negb (basePtr =? NULL)
   then rc ← sys_UnmapViewOfFile basePtr;
        if rc =? 0
        then basePtr ← load this mBasePtr; LOG (LOGD_UnmapViewOfFile basePtr)
        else mret tt
   else mret tt);;
  fileMapping ← load this mFileMapping;
  (if negb (fileMapping =? NULL) then sys_CloseHandle fileMapping else mret tt);;
  destruct_ this.

(** [create] (lines 125-215, the branch for [defined(__MINGW32__)]). *)
Definition create (this : nat) (origFileName : option string)
    (fd offset length : Z) (readOnly : bool) : M bool :=
  pageSize ← read_mPageSize;
  (if pageSize =? -1
   then granularity ← sys_GetSystemInfo;
        write_mPageSize (to_int granularity)
   else mret tt);;
  let protect := if readOnly then PAGE_READONLY else PAGE_READWRITE in
  h ← sys_get_osfhandle fd;
  store this (set_mFileHandle h);;
  fileHandle ← load this mFileHandle;
  hMap ← sys_CreateFileMapping fileHandle protect;
  store this (set_mFileMapping hMap);;
  fileMapping ← load this mFileMapping;
  if fileMapping =? NULL
  then fileHandle ← load this mFileHandle;
       LOG (LOGE_CreateFileMapping fileHandle protect);;
       mret false
  else
  pageSize ← read_mPageSize;
  r ← c_rem offset pageSize;
  let adjust := to_int r in
  adjOffset ← c_sub_off64 offset adjust;
  let adjLength := to_size abi (length + adjust) in
  fileMapping ← load this mFileMapping;
  ptr ← sys_MapViewOfFile fileMapping
          (if readOnly then FILE_MAP_READ else FILE_MAP_ALL_ACCESS)
          0 (to_DWORD adjOffset) adjLength;
  store this (set_mBasePtr ptr);;
  basePtr ← load this mBasePtr;
  if basePtr =? NULL
  then LOG (LOGE_MapViewOfFile adjOffset adjLength);;
       fileMapping ← load this mFileMapping;
       sys_CloseHandle fileMapping;;
       store this (set_mFileMapping NULL);;
       mret false
  else
  fileName ← match origFileName with
             | Some s => sys_strdup s
             | None => mret NULL
             end;
  store this (set_mFileName fileName);;
  store this (set_mBaseLength adjLength);;
  store this (set_mDataOffset offset);;
  basePtr ← load this mBasePtr;
  store this (set_mDataPtr (ptr_add abi basePtr adjust));;
  store this (set_mDataLength length);;
  basePtr ← load this mBasePtr;
  assert_ (negb (basePtr =? NULL));;
  baseLength ← load this mBaseLength;
  dataPtr ← load this mDataPtr;
  dataLength ← load this mDataLength;
  LOG (LOGV_map basePtr baseLength dataPtr dataLength);;
  mret true.

(** [advise] (lines 252-255): [__MINGW32__] comes with [_WIN32]. *)
Definition advise (this : nat) (advice : MapAdvice) : M Z :=
  mret (-1).

End Calls.

(** The allocation granularity [create] works with in [w], and the trace
    once it is known. *)
Definition resolved_page_size (os : OS) (w : World) : Z :=
  if mPageSize w =? -1 then to_int (dwAllocationGranularity os (trace w))
  else mPageSize w.

Definition trace_after_discovery (os : OS) (w : World) : list Event :=
  if mPageSize w =? -1
  then trace w ++ [GetSystemInfo (dwAllocationGranularity os (trace w))]
  else trace w.

Definition final_world {A} (o : Outcome A) : option World :=
  match o with
  | Ret _ w => Some w
  | Aborted w => Some w
  | Undef => None
  end.

Definition is_CloseHandle (e : Event) : bool :=
  match e with CloseHandle _ => true | _ => false end.
Definition is_UnmapViewOfFile (e : Event) : bool :=
  match e with UnmapViewOfFile _ _ => true | _ => false end.

Definition count_events (p : Event → bool) (evs : list Event) : nat :=
  length (List.filter p evs).

(** The state a moved-from object is left in. *)
Definition moved_from (abi : Abi) (m : FileMap) : FileMap :=
  mkFileMap NULL NULL (mBaseLength m) (mDataOffset m) NULL (mDataLength m)
            (INVALID_HANDLE_VALUE abi) NULL.

(** The destructor of [obj] called nothing. *)
Definition dtor_released_nothing (os : OS) (w : World) (obj : nat) : Prop :=
  ∃ w', FileMap_dtor os obj w = Ret tt w' ∧
        trace w' = trace w ∧ views w' = views w ∧ handles w' = handles w ∧
        heap w' = heap w ∧ objs w' = delete obj (objs w).

End Mingw32.

(** ** More concrete systems *)

(** A system whose [munmap] fails. *)
Definition stuck_mapping_os : OS :=
  mkOS (sysconf_SC_PAGESIZE posix_os) (mmap posix_os) (λ _ _ _, -1)
       (madvise posix_os) (strdup posix_os).

(** An empty object at location 0 beside the mapped [object_b] at 1. *)
Definition empty_and_mapped_world : World :=
  mkWorld 4096
    (<[1%nat := object_b]> (<[0%nat := mkFileMap NULL NULL 0 0 NULL 0]> ∅))
    (<[81920 := 54]> ∅)
    (<[96 := "b.apk"%string]> ∅)
    [Sysconf 4096; Mmap 54 1 1 4 4096 81920; Strdup "b.apk" 96;
     Log (LOGV_map 81920 54 81924 50)].

(** A Windows whose calls succeed, one whose [CreateFileMapping] fails and
    one whose [MapViewOfFile] fails; an allocation granularity of 64 KiB. *)
Definition windows_os : Mingw32.OS :=
  Mingw32.mkOS (λ _, 65536)
    (λ _ fd, 1000 + fd)
    (λ t _ _, 2000 + Z.of_nat (length t))
    (λ t _ _ _ _ _, 65536 * (16 + Z.of_nat (length t)))
    (λ _ _, 1)
    (λ t _, 16 * (1 + Z.of_nat (length t))).

Definition no_file_mapping_os : Mingw32.OS :=
  Mingw32.mkOS (Mingw32.dwAllocationGranularity windows_os)
    (Mingw32.get_osfhandle windows_os)
    (λ _ _ _, NULL)
    (Mingw32.mapViewOfFile windows_os)
    (Mingw32.unmapViewOfFile windows_os)
    (Mingw32.strdup windows_os).

Definition no_view_os : Mingw32.OS :=
  Mingw32.mkOS (Mingw32.dwAllocationGranularity windows_os)
    (Mingw32.get_osfhandle windows_os)
    (Mingw32.createFileMapping windows_os)
    (λ _ _ _ _ _ _, NULL)
    (Mingw32.unmapViewOfFile windows_os)
    (Mingw32.strdup windows_os).

(** One empty object at location 0, as the constructor leaves it on Win64
    in the initial world. *)
Definition windows_empty_object : Mingw32.FileMap :=
  Mingw32.mkFileMap NULL NULL 0 0 NULL 0 (Mingw32.INVALID_HANDLE_VALUE Mingw32.Win64) NULL.

Definition windows_empty_world : Mingw32.World :=
  Mingw32.mkWorld (-1) (<[0%nat := windows_empty_object]> ∅) ∅ ∅ ∅ [].

(** The object a successful [create] of 50 bytes at offset 4100 leaves on
    [windows_os], and a world that holds it at location 0 beside an empty
    object at location 1. *)
Definition windows_object_a : Mingw32.FileMap :=
  Mingw32.mkFileMap 80 1245184 4150 4100 1249284 50 1003 2002.


(** ** The build without assertions

    [create] as the preprocessor leaves it in the POSIX build when [NDEBUG]
    is defined: every [assert(e)] expands to [((void)0)], and nothing else
    changes. *)
Section CallsNDEBUG.
Context (os : OS) (abi : Abi).

Definition create_NDEBUG (this : nat) (origFileName : option string)
    (fd offset length : Z) (readOnly : bool) : M bool :=
  (* init on first use *)
  pageSize ← read_mPageSize;
  resolved ← (if pageSize =? -1
              then res ← sys_sysconf os;
                   write_mPageSize res;;
                   pageSize ← read_mPageSize;
                   if pageSize =? -1
                   then LOG LOGE_pagesize;; mret false
                   else mret true
              else mret true);
  if negb resolved then mret false else
  pageSize ← read_mPageSize;
  r ← c_rem offset pageSize;
  let adjust := to_int r in
  adjOffset ← c_sub_off64 offset adjust;
  let adjLength := to_size abi (length + adjust) in
  let flags := MAP_SHARED in
  let prot := if readOnly then PROT_READ else Z.lor PROT_READ PROT_WRITE in
  ptr ← sys_mmap os abi adjLength prot flags fd adjOffset;
  if ptr =? MAP_FAILED abi
  then LOG (LOGE_mmap adjOffset adjLength);; mret false
  else
  store this (set_mBasePtr ptr);;
  fileName ← match origFileName with
             | Some s => sys_strdup os s
             | None => mret NULL
             end;
  store this (set_mFileName fileName);;
  store this (set_mBaseLength adjLength);;
  store this (set_mDataOffset offset);;
  basePtr ← load this mBasePtr;
  store this (set_mDataPtr (ptr_add abi basePtr adjust));;
  store this (set_mDataLength length);;
  basePtr ← load this mBasePtr;
  baseLength ← load this mBaseLength;
  dataPtr ← load this mDataPtr;
  dataLength ← load this mDataLength;
  LOG (LOGV_map basePtr baseLength dataPtr dataLength);;
  mret true.

End CallsNDEBUG.


(** The replies of [mmap] and of [strdup] among the events of a call. *)
Definition mmap_replied (addr : Z) (evs : list Event) : Prop :=
  ∃ len prot flags fd off, In (Mmap len prot flags fd off addr) evs.

Definition strdup_replied (p : Z) (evs : list Event) : Prop :=
  ∃ s, In (Strdup s p) evs.

(** ** Running the code *)

Lemma bind_Ret {A B} (c : M A) (f : A → M B) w a w1 :
  c w = Ret a w1 → (c ≫= f) w = f a w1.
Proof. intros H. unfold mbind, M_bind. by rewrite H. Qed.

Lemma bind_assoc {A B C} (c : M A) (f : A → M B) (g : B → M C) w :
  ((c ≫= f) ≫= g) w = (c ≫= λ a, f a ≫= g) w.
Proof. unfold mbind, M_bind. by destruct (c w). Qed.

Lemma load_live {A} obj (field : FileMap → A) w m :
  objs w !! obj = Some m → load obj field w = Ret (field m) w.
Proof. intros H. unfold load. by rewrite H. Qed.

Lemma store_live obj upd w m :
  objs w !! obj = Some m →
  store obj upd w =
    Ret tt (mkWorld (mPageSize w) (<[obj := upd m]> (objs w)) (maps w) (heap w) (trace w)).
Proof. intros H. unfold store. by rewrite H. Qed.

Ltac live := cbn [objs]; simplify_map_eq; reflexivity.

Ltac tidy := cbn [mPageSize objs maps heap trace]; rewrite ?insert_insert_eq.

(** One statement of the code: a member access through a live object, or a
    primitive that always returns. *)
Ltac step :=
  first [ erewrite (bind_Ret (load _ _)) by (apply load_live; live)
        | erewrite (bind_Ret (store _ _)) by (apply store_live; live)
        | erewrite load_live by live
        | erewrite store_live by live
        | erewrite bind_Ret by reflexivity ];
  tidy.

Lemma move_assign_distinct this other w d s :
  this ≠ other → objs w !! this = Some d → objs w !! other = Some s →
  FileMap_move_assign this other w =
    Ret tt (mkWorld (mPageSize w)
              (<[other := moved_from s]> (<[this := s]> (objs w)))
              (maps w) (heap w) (trace w)).
Proof.
  intros Hne Hd Hs. unfold FileMap_move_assign.
  repeat step. destruct s; reflexivity.
Qed.

(** [x = std::move(x)]: both references name one object. *)
Lemma move_assign_self this w d :
  objs w !! this = Some d →
  FileMap_move_assign this this w =
    Ret tt (mkWorld (mPageSize w) (<[this := moved_from d]> (objs w))
              (maps w) (heap w) (trace w)).
Proof.
  intros Hd. unfold FileMap_move_assign.
  repeat step. destruct d; reflexivity.
Qed.

Lemma move_ctor_run this other w s :
  objs w !! other = Some s →
  FileMap_move_ctor this other w =
    Ret tt (mkWorld (mPageSize w)
              (<[other := moved_from s]> (<[this := s]> (objs w)))
              (maps w) (heap w) (trace w)).
Proof.
  intros Hs. unfold FileMap_move_ctor.
  do 6 step.
  destruct (decide (this = other)) as [->|Hne];
    repeat step; destruct s; reflexivity.
Qed.

(** The destructor of an object whose [mFileName] and [mBasePtr] are null
    calls nothing: it only ends the object's lifetime. *)
Lemma dtor_empty os this w m :
  objs w !! this = Some m → mFileName m = NULL → mBasePtr m = NULL →
  FileMap_dtor os this w =
    Ret tt (mkWorld (mPageSize w) (delete this (objs w)) (maps w) (heap w) (trace w)).
Proof.
  intros Hm Hn Hb. unfold FileMap_dtor.
  step. rewrite Hn. cbn [NULL Z.eqb negb].
  step. step. rewrite Hb. cbn [NULL Z.eqb negb].
  step. reflexivity.
Qed.

(** The destructor of an object that holds a mapping. *)
Lemma dtor_mapped os this w m :
  objs w !! this = Some m → mBasePtr m ≠ NULL →
  let named := negb (mFileName m =? NULL) in
  let t1 := if named then trace w ++ [Free (mFileName m)] else trace w in
  let rc := munmap os t1 (mBasePtr m) (mBaseLength m) in
  FileMap_dtor os this w =
    Ret tt (mkWorld (mPageSize w) (delete this (objs w))
              (if rc =? 0 then delete (mBasePtr m) (maps w) else maps w)
              (if named then delete (mFileName m) (heap w) else heap w)
              (t1 ++ [Munmap (mBasePtr m) (mBaseLength m) rc])).
Proof.
  intros Hm Hb. cbn zeta. unfold FileMap_dtor.
  apply Z.eqb_neq in Hb.
  step. destruct (mFileName m =? NULL) eqn:Hn; cbn [negb];
    step; step; rewrite Hb; cbn [negb]; rewrite bind_assoc; step;
    rewrite bind_assoc; step;
    (destruct (munmap os _ _ _ =? 0) eqn:Hrc; cbn [negb]; step; reflexivity).
Qed.

(** ** Ownership transfer and release *)



(** C10: a move construction from [src] and a move assignment out of [src]
    reset [src]'s [mFileName], [mBasePtr] and [mDataPtr] to null and leave
    its [mBaseLength], [mDataOffset] and [mDataLength] as they were; this
    holds also when the destination is [src] itself. *)
Theorem move_resets_only_the_pointers w src dst fresh s d :
  objs w !! src = Some s → objs w !! dst = Some d →
  (∃ w1 s', FileMap_move_ctor fresh src w = Ret tt w1 ∧
            objs w1 !! src = Some s' ∧ pointers_reset s s') ∧
  (∃ w1 s', FileMap_move_assign dst src w = Ret tt w1 ∧
            objs w1 !! src = Some s' ∧ pointers_reset s s').
Proof.
  intros Hs Hd. split.
  - eexists _, (moved_from s). split; [by apply move_ctor_run|].
    cbn [objs]. split; [by simplify_map_eq|done].
  - destruct (decide (dst = src)) as [->|Hne].
    + eexists _, (moved_from s). split; [by apply move_assign_self|].
      cbn [objs]. split; [by simplify_map_eq|done].
    + eexists _, (moved_from s).
      split; [by apply (move_assign_distinct dst src w d s)|].
      cbn [objs]. split; [by simplify_map_eq|done].
Qed.


(** A property of every live object can be read off the list of them. *)
Lemma all_objects (P : nat → FileMap → Prop) (w : World) :
  Forall (uncurry P) (map_to_list (objs w)) →
  ∀ obj m, objs w !! obj = Some m → P obj m.
Proof.
  intros H. by apply (map_Forall_lookup P (objs w)), map_Forall_to_list.
Qed.

(** Move assignment calls nothing.  So what the destination alone owned
    before is, afterwards, owned by nobody. *)
Lemma move_assign_leaks this other w d s :
  this ≠ other → objs w !! this = Some d → objs w !! other = Some s →
  ∃ w', FileMap_move_assign this other w = Ret tt w' ∧
        trace w' = trace w ∧ maps w' = maps w ∧ heap w' = heap w ∧
        (mBasePtr d ≠ NULL → is_Some (maps w !! mBasePtr d) →
         (∀ obj m, objs w !! obj = Some m → mBasePtr m = mBasePtr d → obj = this) →
         leaked_mapping w' (mBasePtr d)) ∧
        (mFileName d ≠ NULL → is_Some (heap w !! mFileName d) →
         (∀ obj m, objs w !! obj = Some m → mFileName m = mFileName d → obj = this) →
         leaked_block w' (mFileName d)).
Proof.
  intros Hne Hd Hs. eexists.
  split; [by apply (move_assign_distinct this other w d s)|].
  cbn [trace maps heap objs]. do 3 (split; [done|]). split.
  - intros Hnull Hlive Hsole. split; [done|]. cbn [objs].
    intros obj m Hm Heq.
    destruct (decide (obj = other)) as [->|Hno].
    { rewrite lookup_insert_eq in Hm. by injection Hm as <-. }
    rewrite lookup_insert_ne in Hm by done.
    destruct (decide (obj = this)) as [->|Hnt].
    { rewrite lookup_insert_eq in Hm. injection Hm as <-.
      by specialize (Hsole other s Hs Heq). }
    rewrite lookup_insert_ne in Hm by done.
    by specialize (Hsole obj m Hm Heq).
  - intros Hnull Hlive Hsole. split; [done|]. cbn [objs].
    intros obj m Hm Heq.
    destruct (decide (obj = other)) as [->|Hno].
    { rewrite lookup_insert_eq in Hm. by injection Hm as <-. }
    rewrite lookup_insert_ne in Hm by done.
    destruct (decide (obj = this)) as [->|Hnt].
    { rewrite lookup_insert_eq in Hm. injection Hm as <-.
      by specialize (Hsole other s Hs Heq). }
    rewrite lookup_insert_ne in Hm by done.
    by specialize (Hsole obj m Hm Heq).
Qed.

(** ** Move assignment onto an object that holds a mapping *)

Lemma two_maps_run : two_maps initial_world = Ret true two_maps_world.
Proof. vm_compute. reflexivity. Qed.

(** [x = std::move(x)] on a mapped object: the object is left moved-from,
    and the mapping it held is live with no object referring to it. *)
Example self_move_assign_forgets_the_mapping :
  ∃ w1, FileMap_move_assign 0 0 two_maps_world = Ret tt w1 ∧
        objs w1 !! 0%nat = Some (moved_from object_a) ∧
        trace w1 = trace two_maps_world ∧
        leaked_mapping w1 (mBasePtr object_a).
Proof.
  assert (Ha : objs two_maps_world !! 0%nat = Some object_a)
    by (vm_compute; reflexivity).
  eexists. split; [by apply move_assign_self|].
  split; [apply lookup_insert_eq|]. split; [reflexivity|].
  split; [vm_compute; eexists; reflexivity|].
  apply (all_objects (λ _ m, mBasePtr m ≠ mBasePtr object_a)).
  set (l := map_to_list _). vm_compute in l. subst l.
  repeat constructor; cbn; discriminate.
Qed.


(** C1 (as the code behaves): with two mapped objects, [dst = std::move(src)]
    calls neither [munmap] nor [free]; the mapping and the name that [dst]
    held stay live while no object refers to them, and they are still live
    after both objects have been destroyed. *)
Theorem move_assign_onto_mapped_leaks :
  ∃ a w3 w4,
    two_maps initial_world = Ret true two_maps_world ∧
    objs two_maps_world !! 0%nat = Some a ∧
    mBasePtr a ≠ NULL ∧
    maps two_maps_world !! mBasePtr a = Some (mBaseLength a) ∧
    FileMap_move_assign 0 1 two_maps_world = Ret tt w3 ∧
    trace w3 = trace two_maps_world ∧
    leaked_mapping w3 (mBasePtr a) ∧
    leaked_block w3 (mFileName a) ∧
    (FileMap_dtor posix_os 0;; FileMap_dtor posix_os 1) w3 = Ret tt w4 ∧
    objs w4 = ∅ ∧
    maps w4 !! mBasePtr a = Some (mBaseLength a) ∧
    heap w4 !! mFileName a = Some "a.apk"%string.
Proof.
  assert (Ha : objs two_maps_world !! 0%nat
               = Some (mkFileMap 48 69632 100 0 69632 100))
    by (vm_compute; reflexivity).
  assert (Hb : objs two_maps_world !! 1%nat
               = Some (mkFileMap 96 81920 54 4100 81924 50))
    by (vm_compute; reflexivity).
  assert (Hne : 0%nat ≠ 1%nat) by discriminate.
  destruct (move_assign_leaks 0 1 two_maps_world _ _ Hne Ha Hb)
    as (w3 & Hrun & Htr & _ & _ & Hleakm & Hleakb).
  cbn [mBasePtr mFileName] in Hleakm, Hleakb.
  exists (mkFileMap 48 69632 100 0 69632 100), w3.
  cbn [mBasePtr mBaseLength mFileName].
  eexists.
  split; [exact two_maps_run|]. split; [exact Ha|].
  split; [discriminate|]. split; [vm_compute; reflexivity|].
  split; [exact Hrun|]. split; [exact Htr|].
  split.
  { apply Hleakm; [discriminate|vm_compute; eexists; reflexivity|].
    apply (all_objects (λ obj m, mBasePtr m = 69632 → obj = 0%nat)).
    clear. set (l := map_to_list _). vm_compute in l. subst l.
    repeat constructor; cbn; intros [=]. }
  split.
  { apply Hleakb; [discriminate|vm_compute; eexists; reflexivity|].
    apply (all_objects (λ obj m, mFileName m = 48 → obj = 0%nat)).
    clear. set (l := map_to_list _). vm_compute in l. subst l.
    repeat constructor; cbn; intros [=]. }
  rewrite (move_assign_distinct 0 1 two_maps_world _ _ Hne Ha Hb) in Hrun.
  injection Hrun as <-. clear. vm_compute. repeat split.
Qed.

(** ** Creation *)

(** Unfolds a member function down to the worlds it builds. *)
Ltac run_all :=
  unfold create, advise, advise_WIN32, c_rem, c_sub_off64, undefined, LOG, emit,
    assert_, sys_sysconf, sys_mmap, sys_munmap, sys_madvise, sys_strdup,
    sys_free, read_mPageSize, write_mPageSize, load, store,
    mbind, M_bind, mret, M_ret.

Ltac world_simpl :=
  cbn [Z.eqb Pos.eqb mPageSize objs maps heap trace negb final_trace] in *.

Ltac world_cbv :=
  cbv beta iota zeta delta
    [mPageSize objs maps heap trace negb final_trace
     set_mFileName set_mBasePtr set_mBaseLength set_mDataOffset set_mDataPtr
     set_mDataLength mFileName mBasePtr mBaseLength mDataOffset mDataPtr
     mDataLength].

(** The condition the next step of a run waits for. *)
Ltac head_scrutinee t :=
  lazymatch t with
  | match ?x with _ => _ end => head_scrutinee x
  | (match ?x with _ => _ end) _ => head_scrutinee x
  | _ => t
  end.

(** Follows a run whose worlds and objects are given by their fields,
    branching on each condition in the order the code tests them. *)
Ltac follow_run :=
  repeat (world_cbv; rewrite ?lookup_insert_eq, ?insert_insert_eq;
          lazymatch goal with
          | |- match ?x with _ => _ end =>
              let s := head_scrutinee x in destruct s eqn:?
          end);
  world_cbv; rewrite ?lookup_insert_eq, ?insert_insert_eq.

Ltac asserts_hold fd offset length :=
  rewrite (proj2 (Z.leb_le 0 fd)), (proj2 (Z.leb_le 0 offset)),
    (proj2 (Z.ltb_lt 0 length)) by lia.

(** With its assertions compiled in, the POSIX [create] with [length == 0]
    never returns: one of the three assertions that open it fails
    ([assert(length > 0)] at the latest) and the process aborts before any
    system call is made and before any field is written. *)
Theorem create_zero_length_is_rejected os abi this origFileName fd offset readOnly w :
  ∃ w', create os abi this origFileName fd offset 0 readOnly w = Aborted w' ∧
        trace w' = trace w ++ [AssertionFailed] ∧
        objs w' = objs w ∧ maps w' = maps w ∧ heap w' = heap w ∧
        mPageSize w' = mPageSize w.
Proof.
  exists (mkWorld (mPageSize w) (objs w) (maps w) (heap w)
            (trace w ++ [AssertionFailed])).
  split; [|done].
  unfold create.
  destruct (0 <=? fd) eqn:Hfd; [|reflexivity].
  destruct (0 <=? offset) eqn:Hoff; reflexivity.
Qed.

(** Where [create] does not fail an assertion, the build without
    assertions does exactly what the build with them does. *)
Lemma create_NDEBUG_agrees os abi this origFileName fd offset length readOnly w :
  match create os abi this origFileName fd offset length readOnly w with
  | Aborted _ => True
  | o => create_NDEBUG os abi this origFileName fd offset length readOnly w = o
  end.
Proof.
  destruct w as [ps os0 ms hp tr].
  unfold create_NDEBUG. run_all.
  follow_run; try done.
  all: repeat match goal with H : _ = _ |- _ => rewrite ?H end; reflexivity.
Qed.

(** C7 (as the code behaves): [assert(length > 0)] of the POSIX branch is
    the only test of [length] in [create].  The [__MINGW32__] branch has no
    such assertion: there [create] with [length == 0] asks for a view of 0
    bytes, which the system grants, and returns [true] with
    [mDataLength == 0].  The POSIX branch does the same once its assertions
    are compiled out; with them compiled in, the same call aborts. *)
Theorem create_accepts_zero_length :
  (∃ w' m,
     Mingw32.create windows_os Mingw32.Win64 0 None 3 0 0 true windows_empty_world
       = Mingw32.Ret true w' ∧
     Mingw32.objs w' !! 0%nat = Some m ∧
     Mingw32.mDataLength m = 0 ∧ Mingw32.mBasePtr m ≠ NULL ∧
     is_Some (Mingw32.views w' !! Mingw32.mBasePtr m) ∧
     ¬ In Mingw32.AssertionFailed (Mingw32.trace w')) ∧
  (∃ w' m,
     create_NDEBUG posix_os LP64 0 None 3 2 0 true one_empty_world = Ret true w' ∧
     objs w' !! 0%nat = Some m ∧
     mDataLength m = 0 ∧ mBasePtr m ≠ NULL ∧
     is_Some (maps w' !! mBasePtr m) ∧
     ¬ In AssertionFailed (trace w')) ∧
  (∃ w', create posix_os LP64 0 None 3 2 0 true one_empty_world = Aborted w' ∧
         trace w' = trace one_empty_world ++ [AssertionFailed]).
Proof.
  split; [|split].
  - eexists _, (Mingw32.mkFileMap 0 1245184 0 0 1245184 0 1003 2002).
    split; [vm_compute; reflexivity|]. split; [vm_compute; reflexivity|].
    split; [reflexivity|]. split; [discriminate|].
    split; [vm_compute; eexists; reflexivity|].
    cbn. intros H. repeat (destruct H as [H|H]; [discriminate H|]). exact H.
  - eexists _, (mkFileMap 0 69632 2 2 69634 0).
    split; [vm_compute; reflexivity|]. split; [vm_compute; reflexivity|].
    split; [reflexivity|]. split; [discriminate|].
    split; [vm_compute; eexists; reflexivity|].
    cbn. intros H. repeat (destruct H as [H|H]; [discriminate H|]). exact H.
  - eexists. split; [vm_compute; reflexivity|reflexivity].
Qed.

(** A call of [create] that finds the page-size cache at [-1] asks
    [sysconf] before anything else. *)
Lemma create_queries_when_uncached os abi this origFileName fd offset length readOnly w t :
  0 ≤ fd → 0 ≤ offset → 0 < length → mPageSize w = -1 →
  final_trace (create os abi this origFileName fd offset length readOnly w) = Some t →
  ∃ rest, t = trace w ++ Sysconf (sysconf_SC_PAGESIZE os (trace w)) :: rest.
Proof.
  intros Hfd Hoff Hlen Hps.
  enough (match final_trace
                  (create os abi this origFileName fd offset length readOnly w) with
          | Some t' =>
              ∃ rest, t' = trace w ++ Sysconf (sysconf_SC_PAGESIZE os (trace w)) :: rest
          | None => True
          end) as Hrun by (intros Ht; by rewrite Ht in Hrun).
  unfold create. asserts_hold fd offset length.
  destruct w as [ps os0 ms hp tr]. cbn [mPageSize] in Hps. subst ps.
  run_all. follow_run; try done.
  all: rewrite <- ?app_assoc; cbn [app]; eexists; reflexivity.
Qed.

(** C5: when the page-size cache holds [-1] and [sysconf] replies [-1],
    [create] returns [false]; the process goes on, no object, mapping or
    heap block is touched, the cache still holds [-1], and the next call of
    [create] asks [sysconf] again before anything else. *)
Theorem create_page_size_discovery_failure
    os abi this origFileName fd offset length readOnly w :
  0 ≤ fd → 0 ≤ offset → 0 < length →
  mPageSize w = -1 →
  sysconf_SC_PAGESIZE os (trace w) = -1 →
  ∃ w', create os abi this origFileName fd offset length readOnly w = Ret false w' ∧
        mPageSize w' = -1 ∧
        objs w' = objs w ∧ maps w' = maps w ∧ heap w' = heap w ∧
        trace w' = trace w ++ [Sysconf (-1); Log LOGE_pagesize] ∧
        ∀ this2 name2 fd2 offset2 length2 readOnly2 t,
          0 ≤ fd2 → 0 ≤ offset2 → 0 < length2 →
          final_trace (create os abi this2 name2 fd2 offset2 length2 readOnly2 w') = Some t →
          ∃ rest, t = trace w' ++ Sysconf (sysconf_SC_PAGESIZE os (trace w')) :: rest.
Proof.
  intros Hfd Hoff Hlen Hps Hsys.
  exists (mkWorld (-1) (objs w) (maps w) (heap w)
            (trace w ++ [Sysconf (-1); Log LOGE_pagesize])).
  split.
  { unfold create. asserts_hold fd offset length.
    run_all. rewrite Hps. world_simpl. rewrite Hsys. world_simpl.
    by rewrite <- app_assoc. }
  do 5 (split; [done|]).
  intros this2 name2 fd2 offset2 length2 readOnly2 t Hfd2 Hoff2 Hlen2.
  by apply create_queries_when_uncached.
Qed.

(** C6: when [create] reaches [mmap] and [mmap] replies [MAP_FAILED],
    [create] logs the failure and returns [false]; no field of any object
    has been written, and the live mappings and heap blocks are those from
    before the call. *)
Theorem create_mmap_failure
    os abi this origFileName fd offset length (readOnly : bool) w
    pageSize adjust adjOffset adjLength prot :
  0 ≤ fd → 0 ≤ offset → 0 < length →
  pageSize = resolved_page_size os w →
  pageSize ≠ -1 → pageSize ≠ 0 →
  adjust = to_int (Z.rem offset pageSize) →
  adjOffset = offset - adjust →
  OFF64_MIN ≤ adjOffset ≤ OFF64_MAX →
  adjLength = to_size abi (length + adjust) →
  prot = (if readOnly then PROT_READ else Z.lor PROT_READ PROT_WRITE) →
  mmap os (trace_after_discovery os w) adjLength prot MAP_SHARED fd adjOffset
    = MAP_FAILED abi →
  ∃ w', create os abi this origFileName fd offset length readOnly w = Ret false w' ∧
        objs w' = objs w ∧ maps w' = maps w ∧ heap w' = heap w ∧
        mPageSize w' = pageSize ∧
        trace w' = trace_after_discovery os w
                   ++ [Mmap adjLength prot MAP_SHARED fd adjOffset (MAP_FAILED abi);
                       Log (LOGE_mmap adjOffset adjLength)].
Proof.
  intros Hfd Hoff Hlen -> Hps1 Hps0 -> -> Hrange -> -> Hmmap.
  unfold resolved_page_size, trace_after_discovery in *.
  assert (Hin : (OFF64_MIN <=? offset - to_int (Z.rem offset
                   (if mPageSize w =? -1 then sysconf_SC_PAGESIZE os (trace w)
                    else mPageSize w)))
                && (offset - to_int (Z.rem offset
                   (if mPageSize w =? -1 then sysconf_SC_PAGESIZE os (trace w)
                    else mPageSize w)) <=? OFF64_MAX) = true).
  { apply andb_true_iff. split; apply Z.leb_le; lia. }
  unfold create. asserts_hold fd offset length. run_all.
  destruct (mPageSize w =? -1) eqn:Hc; world_simpl.
  - apply Z.eqb_neq in Hps1, Hps0. rewrite Hps1. world_simpl.
    rewrite Hps0. world_simpl. rewrite Hin. world_simpl.
    rewrite Hmmap, Z.eqb_refl. world_simpl.
    eexists. split; [reflexivity|]. world_simpl.
    do 4 (split; [done|]). by rewrite <- app_assoc.
  - apply Z.eqb_neq in Hps0. rewrite Hps0. world_simpl. rewrite Hin. world_simpl.
    rewrite Hmmap, Z.eqb_refl. world_simpl.
    eexists. split; [reflexivity|]. world_simpl.
    do 4 (split; [done|]). by rewrite <- app_assoc.
Qed.

(** What a successful [create] has established. *)
Lemma create_success os abi this origFileName fd offset length readOnly w w' :
  create os abi this origFileName fd offset length readOnly w = Ret true w' →
  ∃ m' adjust,
    adjust = to_int (Z.rem offset (resolved_page_size os w)) ∧
    mPageSize w' = resolved_page_size os w ∧
    objs w' !! this = Some m' ∧
    mBaseLength m' = to_size abi (length + adjust) ∧
    mDataOffset m' = offset ∧
    mDataPtr m' = ptr_add abi (mBasePtr m') adjust ∧
    mDataLength m' = length ∧
    mBasePtr m' ≠ NULL ∧ mBasePtr m' ≠ MAP_FAILED abi ∧
    maps w' !! mBasePtr m' = Some (mBaseLength m') ∧
    0 ≤ offset ∧ 0 < length ∧
    resolved_page_size os w ≠ -1 ∧ resolved_page_size os w ≠ 0.
Proof.
  enough (match create os abi this origFileName fd offset length readOnly w with
          | Ret true w1 =>
              ∃ m' adjust,
                adjust = to_int (Z.rem offset (resolved_page_size os w)) ∧
                mPageSize w1 = resolved_page_size os w ∧
                objs w1 !! this = Some m' ∧
                mBaseLength m' = to_size abi (length + adjust) ∧
                mDataOffset m' = offset ∧
                mDataPtr m' = ptr_add abi (mBasePtr m') adjust ∧
                mDataLength m' = length ∧
                mBasePtr m' ≠ NULL ∧ mBasePtr m' ≠ MAP_FAILED abi ∧
                maps w1 !! mBasePtr m' = Some (mBaseLength m') ∧
                0 ≤ offset ∧ 0 < length ∧
                resolved_page_size os w ≠ -1 ∧ resolved_page_size os w ≠ 0
          | _ => True
          end) as Hrun by (intros Hw; by rewrite Hw in Hrun).
  destruct w as [ps os0 ms hp tr].
  unfold create, resolved_page_size. run_all. follow_run; try done.
  all: eexists _, _; split; [reflexivity|]; split; [reflexivity|].
  all: split; [reflexivity|]; world_cbv.
  all: do 4 (split; [reflexivity|]).
  all: split; [by apply Z.eqb_neq|].
  all: split; [by apply Z.eqb_neq|].
  all: split; [by rewrite lookup_insert_eq|].
  all: split; [by apply Z.leb_le|]; split; [by apply Z.ltb_lt|].
  all: split; by apply Z.eqb_neq.
Qed.

(** Where the lengths and addresses of a successful [create] are the exact
    sums: a page size that fits an [int], no wrap-around of
    [length + adjust] in [size_t], and a mapping that ends inside the
    address space. *)
Lemma create_geometry_without_overflow
    os abi this origFileName fd offset length readOnly w w' m' pageSize :
  create os abi this origFileName fd offset length readOnly w = Ret true w' →
  objs w' !! this = Some m' →
  pageSize = resolved_page_size os w →
  0 < pageSize ≤ 2 ^ 31 →
  length + offset `mod` pageSize < size_modulus abi →
  0 ≤ mBasePtr m' → mBasePtr m' + offset `mod` pageSize < size_modulus abi →
  mBaseLength m' = mDataLength m' + offset `mod` pageSize ∧
  mBasePtr m' + offset `mod` pageSize = mDataPtr m' ∧
  (offset `mod` pageSize = 0 →
   mBasePtr m' = mDataPtr m' ∧ mBaseLength m' = mDataLength m').
Proof.
  intros Hrun Hm' -> Hps Hlen Hbase0 Hbase.
  destruct (create_success _ _ _ _ _ _ _ _ _ _ Hrun)
    as (m & adjust & -> & _ & Hm & HbaseLen & _ & HdataPtr & HdataLen & _ & _ & _
        & Hoff & Hlength & _ & _).
  rewrite Hm in Hm'. injection Hm' as ->.
  set (ps := resolved_page_size os w) in *.
  assert (Hrem : Z.rem offset ps = offset `mod` ps)
    by (apply Z.rem_mod_nonneg; lia).
  pose proof (Z.mod_pos_bound offset ps ltac:(lia)) as Hbound.
  assert (Hint : to_int (offset `mod` ps) = offset `mod` ps).
  { unfold to_int. rewrite Z.mod_small; lia. }
  rewrite Hrem, Hint in HbaseLen, HdataPtr.
  unfold to_size in HbaseLen. unfold ptr_add in HdataPtr.
  rewrite Z.mod_small in HbaseLen by lia.
  rewrite Z.mod_small in HdataPtr by lia.
  rewrite HbaseLen, HdataPtr, HdataLen. repeat split; lia.
Qed.

(** C3 (as the code behaves): on LP64 with a page size of 4096, [create]
    at [offset = 2] with [length = SIZE_MAX] computes
    [adjLength = length + adjust] in [size_t], which wraps around to 1;
    mapping one byte succeeds and [create] returns [true] with
    [mBaseLength = 1] and [mDataLength = SIZE_MAX], so that [mBaseLength]
    is not [mDataLength + offset mod pageSize]. *)
Theorem create_length_wraps_around :
  ∃ w1 w2 m,
    FileMap_ctor 0 0 initial_world = Ret tt w1 ∧
    create posix_os LP64 0 None 3 2 (2 ^ 64 - 1) false w1 = Ret true w2 ∧
    mPageSize w2 = 4096 ∧
    objs w2 !! 0%nat = Some m ∧
    mDataLength m = 2 ^ 64 - 1 ∧
    mBaseLength m = 1 ∧
    mBaseLength m ≠ mDataLength m + 2 `mod` 4096 ∧
    mBasePtr m + 2 `mod` 4096 = mDataPtr m ∧
    maps w2 !! mBasePtr m = Some 1.
Proof.
  eexists _, _, (mkFileMap 0 69632 1 2 69634 (2 ^ 64 - 1)).
  split; [reflexivity|].
  split; [vm_compute; reflexivity|].
  vm_compute. repeat split. discriminate.
Qed.

(** ** Creation on an object that already holds a mapping *)

(** C2 (the claim as stated fails): object 0 of [two_maps_world] holds a
    mapping, and [create] on it returns [true] and stores a new mapping in
    its fields; so [create] is not guarded against a second creation. *)
Lemma double_creation_is_not_guarded :
  (∃ m w' m',
     objs two_maps_world !! 0%nat = Some m ∧ mBasePtr m ≠ NULL ∧
     create posix_os LP64 0 None 5 0 10 true two_maps_world = Ret true w' ∧
     objs w' !! 0%nat = Some m' ∧ mBasePtr m' ≠ mBasePtr m) ∧
  ¬ create_guards_double_creation.
Proof.
  assert (Hm : objs two_maps_world !! 0%nat
               = Some (mkFileMap 48 69632 100 0 69632 100))
    by (vm_compute; reflexivity).
  assert (Hrun : ∃ w', create posix_os LP64 0 None 5 0 10 true two_maps_world
                       = Ret true w' ∧
                       objs w' !! 0%nat = Some (mkFileMap 0 94208 10 0 94208 10)).
  { eexists. split; vm_compute; reflexivity. }
  destruct Hrun as (w' & Hrun & Hm').
  split.
  - exists (mkFileMap 48 69632 100 0 69632 100), w',
      (mkFileMap 0 94208 10 0 94208 10).
    split; [exact Hm|]. split; [discriminate|]. split; [exact Hrun|].
    split; [exact Hm'|discriminate].
  - intros Hguard.
    apply (Hguard posix_os LP64 0%nat None 5 0 10 true two_maps_world _ w' Hm);
      [discriminate|exact Hrun].
Qed.

(** C2 (amended): [create] does not look at what the object holds.  Run on
    the same world with [this] holding [m1] or holding [m2] (an empty
    object, say, or one with a live mapping), it ends the same way: the same
    assertions on [fd], [offset] and [length] alone decide whether it
    aborts, it makes the same calls and returns the same value, and on
    success the six fields are overwritten with the same values. *)
Theorem create_ignores_what_the_object_holds
    os abi this origFileName fd offset length readOnly w m1 m2 :
  same_outcome this (with_object w this m1) (with_object w this m2)
    (create os abi this origFileName fd offset length readOnly (with_object w this m1))
    (create os abi this origFileName fd offset length readOnly (with_object w this m2)).
Proof.
  destruct w as [ps os0 ms hp tr], m1, m2.
  unfold same_outcome, with_object, create. run_all.
  follow_run; try done.
  all: repeat split; try done.
Qed.

(** ** Advice *)

Lemma advise_run os this w m advice sysAdvice :
  objs w !! this = Some m →
  sysAdvice_of advice = Some sysAdvice →
  advise_is_madvise os this w m advice sysAdvice.
Proof.
  intros Hm Hadv. unfold advise_is_madvise, advise. rewrite Hadv.
  destruct (madvise os (trace w) (mBasePtr m) (mBaseLength m) sysAdvice =? 0)
    eqn:Hrc.
  - eexists _, _. split; [reflexivity|]. split.
    { do 3 step. rewrite Hrc. cbn [negb]. step. reflexivity. }
    cbn [trace objs maps heap mPageSize]. by rewrite Hrc.
  - eexists _, _. split; [reflexivity|]. split.
    { do 3 step. rewrite Hrc. cbn [negb]. step. reflexivity. }
    cbn [trace objs maps heap mPageSize]. rewrite Hrc.
    by rewrite <- app_assoc.
Qed.

(** C8: each of the five hints is forwarded as its own [madvise] constant,
    applied to [mBasePtr] and [mBaseLength]; [advise] returns the reply of
    that call and changes no object and no mapping.  In the [_WIN32] build
    [advise] returns [-1] whatever the hint and does nothing at all. *)
Theorem advise_forwards_each_hint os this w m :
  objs w !! this = Some m →
  advise_is_madvise os this w m NORMAL MADV_NORMAL ∧
  advise_is_madvise os this w m RANDOM MADV_RANDOM ∧
  advise_is_madvise os this w m SEQUENTIAL MADV_SEQUENTIAL ∧
  advise_is_madvise os this w m WILLNEED MADV_WILLNEED ∧
  advise_is_madvise os this w m DONTNEED MADV_DONTNEED ∧
  (∀ a b sysAdvice,
     sysAdvice_of a = Some sysAdvice → sysAdvice_of b = Some sysAdvice → a = b) ∧
  (∀ advice, advise_WIN32 this advice w = Ret (-1) w).
Proof.
  intros Hm.
  do 5 (split; [by apply advise_run|]).
  split; [|done].
  intros [] [] sa; cbn; congruence.
Qed.

(** ** The theorems at concrete inputs *)

Lemma two_maps_object_a : objs two_maps_world !! 0%nat = Some object_a.
Proof. vm_compute. reflexivity. Defined.

Lemma two_maps_object_b : objs two_maps_world !! 1%nat = Some object_b.
Proof. vm_compute. reflexivity. Defined.

Lemma one_empty_run : FileMap_ctor 0 0 initial_world = Ret tt one_empty_world.
Proof. reflexivity. Qed.


Lemma move_resets_only_the_pointers_witness :
  objs two_maps_world !! 1%nat = Some object_b ∧
  objs two_maps_world !! 0%nat = Some object_a ∧
  (∃ w1 s', FileMap_move_ctor 2 1 two_maps_world = Ret tt w1 ∧
            objs w1 !! 1%nat = Some s' ∧ pointers_reset object_b s') ∧
  (∃ w1 s', FileMap_move_assign 0 1 two_maps_world = Ret tt w1 ∧
            objs w1 !! 1%nat = Some s' ∧ pointers_reset object_b s').
Proof.
  split; [exact two_maps_object_b|]. split; [exact two_maps_object_a|].
  apply (move_resets_only_the_pointers two_maps_world 1 0 2 object_b object_a);
    [exact two_maps_object_b|exact two_maps_object_a].
Defined.


Lemma create_page_size_discovery_failure_witness :
  0 ≤ 3 ∧ 0 ≤ 4100 ∧ 0 < 50 ∧
  mPageSize one_empty_world = -1 ∧
  sysconf_SC_PAGESIZE late_page_size_os (trace one_empty_world) = -1 ∧
  ∃ w', create late_page_size_os LP64 0 (Some "a.apk"%string) 3 4100 50 true
          one_empty_world = Ret false w' ∧
        mPageSize w' = -1 ∧
        objs w' = objs one_empty_world ∧ maps w' = maps one_empty_world ∧
        heap w' = heap one_empty_world ∧
        trace w' = trace one_empty_world ++ [Sysconf (-1); Log LOGE_pagesize] ∧
        ∀ this2 name2 fd2 offset2 length2 readOnly2 t,
          0 ≤ fd2 → 0 ≤ offset2 → 0 < length2 →
          final_trace (create late_page_size_os LP64 this2 name2 fd2 offset2
                         length2 readOnly2 w') = Some t →
          ∃ rest, t = trace w'
                      ++ Sysconf (sysconf_SC_PAGESIZE late_page_size_os (trace w'))
                         :: rest.
Proof.
  split; [lia|]. split; [lia|]. split; [lia|].
  split; [reflexivity|]. split; [reflexivity|].
  apply (create_page_size_discovery_failure late_page_size_os LP64 0
           (Some "a.apk"%string) 3 4100 50 true one_empty_world);
    [lia|lia|lia|reflexivity|reflexivity].
Defined.

(** After such a failure the next [create] finds the page size and maps. *)
Example create_retries_page_size_discovery :
  ∃ w1 w2 m,
    create late_page_size_os LP64 0 (Some "a.apk"%string) 3 4100 50 true
      one_empty_world = Ret false w1 ∧
    mPageSize w1 = -1 ∧
    create late_page_size_os LP64 0 (Some "a.apk"%string) 3 4100 50 true w1
      = Ret true w2 ∧
    mPageSize w2 = 4096 ∧
    objs w2 !! 0%nat = Some m ∧
    mBaseLength m = 54 ∧ mDataLength m = 50 ∧ mDataPtr m = mBasePtr m + 4.
Proof.
  eexists _, _, _.
  split; [vm_compute; reflexivity|]. split; [reflexivity|].
  split; [vm_compute; reflexivity|]. split; [reflexivity|].
  split; [vm_compute; reflexivity|]. vm_compute. done.
Qed.

Lemma create_mmap_failure_witness :
  0 ≤ 3 ∧ 0 ≤ 4100 ∧ 0 < 50 ∧
  4096 = resolved_page_size no_mapping_os one_empty_world ∧
  4096 ≠ -1 ∧ 4096 ≠ 0 ∧
  4 = to_int (Z.rem 4100 4096) ∧
  4096 = 4100 - 4 ∧
  OFF64_MIN ≤ 4096 ≤ OFF64_MAX ∧
  54 = to_size LP64 (50 + 4) ∧
  PROT_READ = (if true then PROT_READ else Z.lor PROT_READ PROT_WRITE) ∧
  mmap no_mapping_os (trace_after_discovery no_mapping_os one_empty_world)
    54 PROT_READ MAP_SHARED 3 4096 = MAP_FAILED LP64 ∧
  ∃ w', create no_mapping_os LP64 0 (Some "a.apk"%string) 3 4100 50 true
          one_empty_world = Ret false w' ∧
        objs w' = objs one_empty_world ∧ maps w' = maps one_empty_world ∧
        heap w' = heap one_empty_world ∧
        mPageSize w' = 4096 ∧
        trace w' = trace_after_discovery no_mapping_os one_empty_world
                   ++ [Mmap 54 PROT_READ MAP_SHARED 3 4096 (MAP_FAILED LP64);
                       Log (LOGE_mmap 4096 54)].
Proof.
  split; [lia|]. split; [lia|]. split; [lia|].
  split; [reflexivity|]. split; [lia|]. split; [lia|].
  split; [reflexivity|]. split; [reflexivity|].
  split; [vm_compute; split; discriminate|].
  split; [reflexivity|]. split; [reflexivity|]. split; [reflexivity|].
  apply (create_mmap_failure no_mapping_os LP64 0 (Some "a.apk"%string)
           3 4100 50 true one_empty_world 4096 4 4096 54 PROT_READ);
    [lia|lia|lia|reflexivity|lia|lia|reflexivity|reflexivity
    |vm_compute; split; discriminate|reflexivity|reflexivity|reflexivity].
Defined.

Lemma advise_forwards_each_hint_witness :
  objs two_maps_world !! 1%nat = Some object_b ∧
  advise_is_madvise posix_os 1 two_maps_world object_b NORMAL MADV_NORMAL ∧
  advise_is_madvise posix_os 1 two_maps_world object_b RANDOM MADV_RANDOM ∧
  advise_is_madvise posix_os 1 two_maps_world object_b SEQUENTIAL MADV_SEQUENTIAL ∧
  advise_is_madvise posix_os 1 two_maps_world object_b WILLNEED MADV_WILLNEED ∧
  advise_is_madvise posix_os 1 two_maps_world object_b DONTNEED MADV_DONTNEED ∧
  (∀ a b sysAdvice,
     sysAdvice_of a = Some sysAdvice → sysAdvice_of b = Some sysAdvice → a = b) ∧
  (∀ advice, advise_WIN32 1 advice two_maps_world = Ret (-1) two_maps_world).
Proof.
  split; [exact two_maps_object_b|].
  apply (advise_forwards_each_hint posix_os 1 two_maps_world object_b).
  exact two_maps_object_b.
Defined.

(** ** More facts about [create] *)

Lemma outcome_returns {A} (o : Outcome A) (a : A) (P : World → Prop) :
  match o with Ret a' w' => a' = a ∧ P w' | _ => False end →
  ∃ w', o = Ret a w' ∧ P w'.
Proof. destruct o as [a' w'| |]; [|done..]. intros [-> HP]. by exists w'. Qed.

Lemma final_world_all {A} (o : Outcome A) (P : World → Prop) :
  match o with Ret _ w' => P w' | Aborted w' => P w' | Undef => True end →
  ∀ w', final_world o = Some w' → P w'.
Proof. destruct o; cbn; intros HP w' [= <-]; done. Qed.

(** Every leaf of a run of [create]: the trace is the old one followed by
    explicitly listed events. *)
Ltac new_events :=
  rewrite <- ?app_assoc; cbn [app];
  eexists; split; [reflexivity|]; cbn.

(** X1: arguments that fail one of the opening assertions abort the
    process before any call and before any write. *)
Theorem create_rejects_bad_arguments
    os abi this origFileName fd offset length readOnly w :
  fd < 0 ∨ offset < 0 ∨ length ≤ 0 →
  create os abi this origFileName fd offset length readOnly w =
    Aborted (mkWorld (mPageSize w) (objs w) (maps w) (heap w)
               (trace w ++ [AssertionFailed])).
Proof.
  intros Hbad. unfold create.
  destruct (0 <=? fd) eqn:Hfd; [|reflexivity].
  destruct (0 <=? offset) eqn:Hoff; [|reflexivity].
  destruct (0 <? length) eqn:Hlen; [|reflexivity].
  apply Z.leb_le in Hfd, Hoff. apply Z.ltb_lt in Hlen. lia.
Qed.

(** X2: a [false] from [create] leaves no trace in the objects, mappings
    and heap, and has one of two causes. *)
Theorem create_false_changes_nothing
    os abi this origFileName fd offset length readOnly w w' :
  create os abi this origFileName fd offset length readOnly w = Ret false w' →
  objs w' = objs w ∧ maps w' = maps w ∧ heap w' = heap w ∧
  ((mPageSize w = -1 ∧ sysconf_SC_PAGESIZE os (trace w) = -1 ∧
    mPageSize w' = -1 ∧
    trace w' = trace w ++ [Sysconf (-1); Log LOGE_pagesize]) ∨
   (∃ len prot off,
      mPageSize w' = resolved_page_size os w ∧
      trace w' = trace_after_discovery os w
                 ++ [Mmap len prot MAP_SHARED fd off (MAP_FAILED abi);
                     Log (LOGE_mmap off len)])).
Proof.
  enough (match create os abi this origFileName fd offset length readOnly w with
          | Ret false w1 =>
              objs w1 = objs w ∧ maps w1 = maps w ∧ heap w1 = heap w ∧
              ((mPageSize w = -1 ∧ sysconf_SC_PAGESIZE os (trace w) = -1 ∧
                mPageSize w1 = -1 ∧
                trace w1 = trace w ++ [Sysconf (-1); Log LOGE_pagesize]) ∨
               (∃ len prot off,
                  mPageSize w1 = resolved_page_size os w ∧
                  trace w1 = trace_after_discovery os w
                             ++ [Mmap len prot MAP_SHARED fd off (MAP_FAILED abi);
                                 Log (LOGE_mmap off len)]))
          | _ => True
          end) as Hrun by (intros Hw; by rewrite Hw in Hrun).
  destruct w as [ps os0 ms hp tr].
  unfold create, resolved_page_size, trace_after_discovery. run_all.
  follow_run; try done.
  - do 3 (split; [reflexivity|]). left.
    apply Z.eqb_eq in Heqb2, Heqb3. rewrite Heqb3.
    by rewrite <- app_assoc.
  - do 3 (split; [reflexivity|]). right. apply Z.eqb_eq in Heqb6.
    eexists _, _, _. split; [reflexivity|]. by rewrite <- app_assoc, Heqb6.
  - do 3 (split; [reflexivity|]). right. apply Z.eqb_eq in Heqb5.
    eexists _, _, _. split; [reflexivity|]. by rewrite <- app_assoc, Heqb5.
Qed.

(** X3: once the page size is cached, [create] does not ask for it again
    and does not change it, however the call ends. *)
Theorem create_keeps_cached_page_size
    os abi this origFileName fd offset length readOnly w w' :
  mPageSize w ≠ -1 →
  final_world (create os abi this origFileName fd offset length readOnly w) = Some w' →
  mPageSize w' = mPageSize w ∧
  ∃ evs, trace w' = trace w ++ evs ∧ count_events is_Sysconf evs = 0%nat.
Proof.
  intros Hps. revert w'. apply final_world_all.
  destruct w as [ps os0 ms hp tr]. cbn [mPageSize trace] in *.
  apply Z.eqb_neq in Hps.
  unfold create. run_all. follow_run; try congruence; try done.
  all: split; [reflexivity|]; new_events; reflexivity.
Qed.

(** X4: whatever the outcome, a call of [create] makes at most one
    [sysconf], one [mmap] and one [strdup] call, and it never calls
    [munmap], [free] or [madvise]. *)
Theorem create_calls
    os abi this origFileName fd offset length readOnly w w' :
  final_world (create os abi this origFileName fd offset length readOnly w) = Some w' →
  ∃ evs, trace w' = trace w ++ evs ∧
         count_events is_release_or_advice evs = 0%nat ∧
         (count_events is_Sysconf evs ≤ 1)%nat ∧
         (count_events is_Mmap evs ≤ 1)%nat ∧
         (count_events is_Strdup evs ≤ 1)%nat.
Proof.
  revert w'. apply final_world_all.
  destruct w as [ps os0 ms hp tr]. cbn [trace].
  unfold create. run_all. follow_run; try done.
  all: new_events; repeat split; lia.
Qed.

(** X5: [create] writes to no object but [this], and no mapping and no
    heap block that was live before the call is gone after it.  The only
    entries of the two tables that can differ afterwards are the address
    [mmap] replied and the block [strdup] replied in this call: every
    other mapping has the length and every other block the content it had
    before. *)
Theorem create_frame
    os abi this origFileName fd offset length readOnly w w' :
  final_world (create os abi this origFileName fd offset length readOnly w) = Some w' →
  (∀ obj, obj ≠ this → objs w' !! obj = objs w !! obj) ∧
  (∀ addr, is_Some (maps w !! addr) → is_Some (maps w' !! addr)) ∧
  (∀ p, is_Some (heap w !! p) → is_Some (heap w' !! p)) ∧
  ∃ evs, trace w' = trace w ++ evs ∧
         (∀ addr, ¬ mmap_replied addr evs → maps w' !! addr = maps w !! addr) ∧
         (∀ p, ¬ strdup_replied p evs → heap w' !! p = heap w !! p).
Proof.
  revert w'. apply final_world_all.
  destruct w as [ps os0 ms hp tr]. cbn [objs maps heap trace].
  unfold create. run_all. follow_run; try done.
  all: split; [intros obj Hne; by rewrite ?lookup_insert_ne|].
  all: split;
    [intros addr Hlive; repeat case_match; try done;
     rewrite lookup_insert; case_decide; done|].
  all: split;
    [intros p Hlive; repeat case_match; try done;
     rewrite lookup_insert; case_decide; done|].
  all: new_events.
  all: split; [intros addr Hno|intros p Hno]; try done.
  all: repeat case_match; try done.
  all: rewrite lookup_insert_ne; [done|].
  all: intros <-; apply Hno; unfold mmap_replied, strdup_replied;
    repeat eexists; cbn; eauto 10.
Qed.

(** X6: on a live object, with arguments that pass the assertions, a page
    size that resolves and an [mmap] that replies an address other than
    [MAP_FAILED] and [NULL], [create] returns [true]: the object holds the
    new mapping and, when a label was given, whatever [strdup] replied (a
    copy of the label, or [NULL]); exactly one mapping is added. *)
Theorem create_succeeds
    os abi this origFileName fd offset length (readOnly : bool) w m
    pageSize adjust adjOffset adjLength prot ptr fileName :
  objs w !! this = Some m →
  0 ≤ fd → 0 ≤ offset → 0 < length →
  pageSize = resolved_page_size os w →
  pageSize ≠ -1 → pageSize ≠ 0 →
  adjust = to_int (Z.rem offset pageSize) →
  adjOffset = offset - adjust →
  OFF64_MIN ≤ adjOffset ≤ OFF64_MAX →
  adjLength = to_size abi (length + adjust) →
  prot = (if readOnly then PROT_READ else Z.lor PROT_READ PROT_WRITE) →
  ptr = mmap os (trace_after_discovery os w) adjLength prot MAP_SHARED fd adjOffset →
  ptr ≠ MAP_FAILED abi → ptr ≠ NULL →
  fileName = match origFileName with
             | Some s => strdup os (trace_after_discovery os w
                                    ++ [Mmap adjLength prot MAP_SHARED fd adjOffset ptr]) s
             | None => NULL
             end →
  ∃ w', create os abi this origFileName fd offset length readOnly w = Ret true w' ∧
        objs w' = <[this := mkFileMap fileName ptr adjLength offset
                              (ptr_add abi ptr adjust) length]> (objs w) ∧
        maps w' = <[ptr := adjLength]> (maps w) ∧
        heap w' = match origFileName with
                  | Some s => if fileName =? NULL then heap w
                              else <[fileName := s]> (heap w)
                  | None => heap w
                  end ∧
        mPageSize w' = pageSize ∧
        trace w' = trace_after_discovery os w
                   ++ [Mmap adjLength prot MAP_SHARED fd adjOffset ptr]
                   ++ match origFileName with
                      | Some s => [Strdup s fileName]
                      | None => []
                      end
                   ++ [Log (LOGV_map ptr adjLength (ptr_add abi ptr adjust) length)].
Proof.
  intros Hm Hfd Hoff Hlen -> Hps1 Hps0 -> -> Hrange -> -> -> Hok Hnn ->.
  apply Z.leb_le in Hfd, Hoff. apply Z.ltb_lt in Hlen.
  apply Z.eqb_neq in Hps1, Hps0, Hok, Hnn.
  assert (Hin : (OFF64_MIN <=? offset - to_int (Z.rem offset (resolved_page_size os w)))
                && (offset - to_int (Z.rem offset (resolved_page_size os w)) <=? OFF64_MAX)
                = true).
  { apply andb_true_iff. split; apply Z.leb_le; lia. }
  destruct w as [ps os0 ms hp tr], m.
  unfold resolved_page_size, trace_after_discovery in *.
  cbn [mPageSize objs maps heap trace] in *.
  unfold create. run_all.
  apply outcome_returns.
  destruct (ps =? -1) eqn:Hc, origFileName as [s|];
    follow_run; try congruence.
  all: rewrite <- ?app_assoc; repeat split; try done.
Qed.

(** What a [true] from [create] has added to the world. *)
Lemma create_true_world os abi this origFileName fd offset length readOnly w w' :
  create os abi this origFileName fd offset length readOnly w = Ret true w' →
  ∃ m fileName ptr adjLength,
    objs w' = <[this := m]> (objs w) ∧
    mFileName m = fileName ∧ mBasePtr m = ptr ∧ mBaseLength m = adjLength ∧
    ptr ≠ NULL ∧
    maps w' = <[ptr := adjLength]> (maps w) ∧
    (heap w' = heap w ∨ ∃ s, fileName ≠ NULL ∧ heap w' = <[fileName := s]> (heap w)).
Proof.
  enough (match create os abi this origFileName fd offset length readOnly w with
          | Ret true w1 =>
              ∃ m fileName ptr adjLength,
                objs w1 = <[this := m]> (objs w) ∧
                mFileName m = fileName ∧ mBasePtr m = ptr ∧
                mBaseLength m = adjLength ∧ ptr ≠ NULL ∧
                maps w1 = <[ptr := adjLength]> (maps w) ∧
                (heap w1 = heap w ∨
                 ∃ s, fileName ≠ NULL ∧ heap w1 = <[fileName := s]> (heap w))
          | _ => True
          end) as Hrun by (intros Hw; by rewrite Hw in Hrun).
  destruct w as [ps os0 ms hp tr].
  unfold create. run_all. follow_run; try done.
  all: eexists _, _, _, _; split; [reflexivity|]; world_cbv.
  all: do 3 (split; [reflexivity|]).
  all: split; [by apply Z.eqb_neq|]; split; [reflexivity|].
  all: try (by left).
  all: match goal with
       | |- (if ?c then _ else _) = _ ∨ _ => destruct c eqn:Hc
       end; [by left|right; eexists; split; [by apply Z.eqb_neq|done]].
Qed.

(** The destructor on any live object. *)
Lemma dtor_run os this w m :
  objs w !! this = Some m →
  let named := negb (mFileName m =? NULL) in
  let mapped := negb (mBasePtr m =? NULL) in
  let t1 := if named then trace w ++ [Free (mFileName m)] else trace w in
  let rc := munmap os t1 (mBasePtr m) (mBaseLength m) in
  FileMap_dtor os this w =
    Ret tt (mkWorld (mPageSize w) (delete this (objs w))
              (if mapped && (rc =? 0) then delete (mBasePtr m) (maps w) else maps w)
              (if named then delete (mFileName m) (heap w) else heap w)
              (if mapped then t1 ++ [Munmap (mBasePtr m) (mBaseLength m) rc] else t1)).
Proof.
  intros Hm. cbn zeta.
  destruct (mBasePtr m =? NULL) eqn:Hb; cbn [negb andb].
  - apply Z.eqb_eq in Hb. unfold FileMap_dtor.
    step. destruct (mFileName m =? NULL) eqn:Hn; cbn [negb];
      step; step; rewrite Hb; cbn [NULL Z.eqb negb]; step; reflexivity.
  - apply Z.eqb_neq in Hb. rewrite (dtor_mapped os this w m Hm Hb).
    cbn zeta. reflexivity.
Qed.

(** X7: the request [create] sends to [mmap] starts at the page boundary at
    or below [offset], shares the file's pages ([MAP_SHARED]), asks for
    read access, and for write access only when [readOnly] is false, and
    its length is the distance from that boundary to the end of the
    logical range, reduced to [size_t]. *)
Theorem create_maps_from_a_page_boundary
    os abi this origFileName fd offset length (readOnly : bool) w w' evs
    len prot flags fd' off res pageSize :
  final_world (create os abi this origFileName fd offset length readOnly w) = Some w' →
  trace w' = trace w ++ evs →
  In (Mmap len prot flags fd' off res) evs →
  pageSize = resolved_page_size os w →
  0 < pageSize ≤ 2 ^ 31 →
  flags = MAP_SHARED ∧ fd' = fd ∧
  prot = (if readOnly then 1 else 3) ∧
  off `mod` pageSize = 0 ∧ 0 ≤ off ≤ offset ∧ offset - off < pageSize ∧
  len = to_size abi (length + (offset - off)).
Proof.
  enough (match create os abi this origFileName fd offset length readOnly w with
          | Ret _ w1 | Aborted w1 =>
              ∀ evs', trace w1 = trace w ++ evs' →
                In (Mmap len prot flags fd' off res) evs' →
                0 < resolved_page_size os w ≤ 2 ^ 31 →
                flags = MAP_SHARED ∧ fd' = fd ∧
                prot = (if readOnly then 1 else 3) ∧
                off `mod` resolved_page_size os w = 0 ∧ 0 ≤ off ≤ offset ∧
                offset - off < resolved_page_size os w ∧
                len = to_size abi (length + (offset - off))
          | Undef => True
          end) as Hrun.
  { intros Hfin Htr Hin -> Hps.
    destruct (create os abi this origFileName fd offset length readOnly w);
      cbn in Hfin; [injection Hfin as ->..|done]; by eapply Hrun. }
  assert (Hgeom : ∀ ps, 0 ≤ offset → 0 < ps ≤ 2 ^ 31 →
            to_int (Z.rem offset ps) = offset `mod` ps ∧
            (offset - offset `mod` ps) `mod` ps = 0 ∧
            0 ≤ offset - offset `mod` ps ≤ offset ∧
            offset - (offset - offset `mod` ps) < ps).
  { intros ps Hoff Hps.
    pose proof (Z.mod_pos_bound offset ps ltac:(lia)) as Hb.
    pose proof (Z.mod_le offset ps ltac:(lia) ltac:(lia)) as Hle.
    rewrite Z.rem_mod_nonneg by lia.
    split; [unfold to_int; rewrite Z.mod_small; lia|].
    split; [|lia].
    rewrite (Z.div_mod offset ps) at 1 by lia.
    replace (ps * (offset / ps) + offset `mod` ps - offset `mod` ps)
      with ((offset / ps) * ps) by lia.
    apply Z.mod_mul. lia. }
  destruct w as [ps os0 ms hp tr].
  unfold create, resolved_page_size. run_all. cbn [mPageSize trace].
  follow_run; try done.
  all: intros evs' Hevs Hin Hps; rewrite <- ?app_assoc in Hevs;
    apply (inj (app tr)) in Hevs; subst evs'; cbn [app In] in Hin.
  all: repeat (destruct Hin as [Hin|Hin]; try discriminate Hin; try done).
  all: apply Z.leb_le in Heqb0.
  all: injection Hin as <- <- <- <- <- <-.
  all: destruct (Hgeom _ Heqb0 Hps) as (-> & ? & ? & ?).
  all: repeat split; try done; try lia.
  all: try (f_equal; lia).
Qed.

(** X8: where nothing wraps around, the bytes handed to the caller are
    exactly the tail of the live mapping: [mDataPtr .. mDataPtr +
    mDataLength) ends where the mapping ends and starts inside it. *)
Theorem created_region_inside_mapping
    os abi this origFileName fd offset length readOnly w w' m' pageSize :
  create os abi this origFileName fd offset length readOnly w = Ret true w' →
  objs w' !! this = Some m' →
  pageSize = resolved_page_size os w →
  0 < pageSize ≤ 2 ^ 31 →
  length + offset `mod` pageSize < size_modulus abi →
  0 ≤ mBasePtr m' → mBasePtr m' + mBaseLength m' ≤ size_modulus abi →
  maps w' !! mBasePtr m' = Some (mBaseLength m') ∧
  mBasePtr m' ≤ mDataPtr m' ∧
  mDataPtr m' + mDataLength m' = mBasePtr m' + mBaseLength m' ∧
  mDataLength m' = length ∧ 0 < length ∧
  mDataPtr m' - mBasePtr m' = offset `mod` pageSize.
Proof.
  intros Hrun Hm' -> Hps Hlen Hbase0 Hend.
  destruct (create_success _ _ _ _ _ _ _ _ _ _ Hrun)
    as (m & adjust & -> & _ & Hm & HbaseLen & _ & HdataPtr & HdataLen & _ & _
        & Hlive & Hoff & Hlength & _ & _).
  rewrite Hm in Hm'. injection Hm' as ->.
  set (ps := resolved_page_size os w) in *.
  pose proof (Z.mod_pos_bound offset ps ltac:(lia)) as Hbound.
  assert (Hint : to_int (Z.rem offset ps) = offset `mod` ps).
  { rewrite Z.rem_mod_nonneg by lia. unfold to_int. rewrite Z.mod_small; lia. }
  rewrite Hint in HbaseLen, HdataPtr.
  unfold to_size in HbaseLen. rewrite Z.mod_small in HbaseLen by lia.
  unfold ptr_add in HdataPtr. rewrite Z.mod_small in HdataPtr by lia.
  repeat split; [exact Hlive|lia..].
Qed.

(** X9: a mapping created at a fresh address and destroyed again leaves
    the mappings and the heap as they were before [create]: the destructor
    gives back exactly what [create] took. *)
Theorem create_then_destroy_restores
    os abi this origFileName fd offset length readOnly w w1 m1 :
  create os abi this origFileName fd offset length readOnly w = Ret true w1 →
  objs w1 !! this = Some m1 →
  maps w !! mBasePtr m1 = None →
  heap w !! mFileName m1 = None →
  (∀ t, munmap os t (mBasePtr m1) (mBaseLength m1) = 0) →
  ∃ w2, FileMap_dtor os this w1 = Ret tt w2 ∧
        maps w2 = maps w ∧ heap w2 = heap w ∧
        objs w2 = delete this (objs w) ∧
        mPageSize w2 = mPageSize w1.
Proof.
  intros Hrun Hm1 Hfresh Hblock Hunmap.
  destruct (create_true_world _ _ _ _ _ _ _ _ _ _ Hrun)
    as (m & fileName & ptr & adjLength & Hobjs & <- & <- & <- & Hnn & Hmaps & Hheap).
  assert (m1 = m) as ->.
  { rewrite Hobjs, lookup_insert_eq in Hm1. by injection Hm1. }
  eexists. split; [by apply dtor_run|]. cbn [maps heap objs mPageSize].
  apply Z.eqb_neq in Hnn. rewrite Hnn, Hunmap. cbn [negb andb Z.eqb].
  split; [rewrite Hmaps; by apply delete_insert_id|].
  split; [|split; [rewrite Hobjs; apply delete_insert_eq|reflexivity]].
  destruct (mFileName m =? NULL) eqn:Hn; cbn [negb].
  - destruct Hheap as [->|(s & Hnamed & _)]; [done|].
    by apply Z.eqb_neq in Hnamed; congruence.
  - destruct Hheap as [->|(s & _ & ->)];
      [by apply delete_id|by apply delete_insert_id].
Qed.

(** X10: moving an object into a new one and destroying both ends in the
    very world that destroying the original alone ends in: what the source
    owned is released once, by the destination. *)
Theorem move_ctor_then_destroy_both os w src fresh s :
  objs w !! src = Some s → objs w !! fresh = None →
  ∃ w1 w2 w3,
    FileMap_move_ctor fresh src w = Ret tt w1 ∧
    FileMap_dtor os src w1 = Ret tt w2 ∧
    trace w2 = trace w ∧
    FileMap_dtor os fresh w2 = Ret tt w3 ∧
    FileMap_dtor os src w = Ret tt w3.
Proof.
  intros Hs Hfresh.
  assert (Hne : src ≠ fresh) by congruence.
  eexists _, _, _.
  split; [by apply move_ctor_run|].
  split; [eapply dtor_empty; [apply lookup_insert_eq|done..]|].
  split; [reflexivity|].
  cbn [mPageSize objs maps heap trace].
  erewrite (dtor_run os fresh _ s);
    [|cbn [objs]; by rewrite lookup_delete_ne, lookup_insert_ne, lookup_insert_eq].
  rewrite (dtor_run os src w s Hs). cbn [mPageSize objs maps heap trace].
  split; [reflexivity|]. do 2 f_equal.
  apply map_eq. intros i.
  rewrite !lookup_delete, !lookup_insert.
  repeat case_decide; simplify_eq; done.
Qed.

(** X11: move assignment onto an object that holds nothing, followed by
    the destruction of both objects, ends in the very world that destroying
    the two without the assignment ends in: nothing is leaked and what the
    source owned is released once. *)
Theorem move_assign_onto_empty_then_destroy_both os w src dst s d :
  objs w !! src = Some s → objs w !! dst = Some d → src ≠ dst →
  mFileName d = NULL → mBasePtr d = NULL →
  ∃ w1 w2 w3,
    FileMap_move_assign dst src w = Ret tt w1 ∧
    trace w1 = trace w ∧
    FileMap_dtor os src w1 = Ret tt w2 ∧
    trace w2 = trace w ∧
    FileMap_dtor os dst w2 = Ret tt w3 ∧
    (FileMap_dtor os dst;; FileMap_dtor os src) w = Ret tt w3.
Proof.
  intros Hs Hd Hne Hdn Hdb.
  eexists _, _, _.
  split; [by apply (move_assign_distinct dst src w d s)|].
  split; [reflexivity|].
  split; [eapply dtor_empty; [apply lookup_insert_eq|done..]|].
  split; [reflexivity|].
  cbn [mPageSize objs maps heap trace].
  erewrite (dtor_run os dst _ s);
    [|cbn [objs]; by rewrite lookup_delete_ne, lookup_insert_ne, lookup_insert_eq].
  erewrite bind_Ret by (by apply (dtor_empty os dst w d)).
  erewrite (dtor_run os src _ s);
    [|cbn [objs]; by rewrite lookup_delete_ne].
  cbn [mPageSize objs maps heap trace].
  split; [reflexivity|]. do 2 f_equal.
  apply map_eq. intros i.
  rewrite !lookup_delete, !lookup_insert.
  repeat case_decide; simplify_eq; done.
Qed.

(** X12: when [munmap] fails, the destructor does not report it and does
    not try again: it returns as usual and logs nothing, the object is
    gone, and the mapping is still live; if no other object holds it, it
    is leaked. *)
Theorem dtor_ignores_munmap_failure os this w m :
  objs w !! this = Some m →
  mBasePtr m ≠ NULL →
  (∀ t, munmap os t (mBasePtr m) (mBaseLength m) ≠ 0) →
  is_Some (maps w !! mBasePtr m) →
  (∀ obj m', objs w !! obj = Some m' → mBasePtr m' = mBasePtr m → obj = this) →
  ∃ w', FileMap_dtor os this w = Ret tt w' ∧
        objs w' = delete this (objs w) ∧
        maps w' = maps w ∧
        (∃ evs, trace w' = trace w ++ evs ∧ count_events is_Log evs = 0%nat) ∧
        leaked_mapping w' (mBasePtr m).
Proof.
  intros Hm Hb Hfail Hlive Hsole.
  eexists. split; [by apply dtor_run|]. cbn [maps heap objs trace].
  pose proof Hb as Hb'. apply Z.eqb_neq in Hb'. rewrite Hb'. cbn [negb andb].
  assert (Hrc : ∀ t, (munmap os t (mBasePtr m) (mBaseLength m) =? 0) = false)
    by (intros t; apply Z.eqb_neq, Hfail).
  rewrite Hrc. split; [reflexivity|]. split; [reflexivity|].
  split.
  - destruct (negb (mFileName m =? NULL)); new_events; reflexivity.
  - split; [done|]. cbn [objs]. intros obj m' Hm' Heq.
    destruct (decide (obj = this)) as [->|Hne].
    + by rewrite lookup_delete_eq in Hm'.
    + rewrite lookup_delete_ne in Hm' by done. by specialize (Hsole obj m' Hm' Heq).
Qed.

(** ** The ownership discipline *)

Lemma invariant_insert_unmapped w obj m ps :
  ownership_invariant w → mBasePtr m = NULL →
  ownership_invariant
    (mkWorld ps (<[obj := m]> (objs w)) (maps w) (heap w) (trace w)).
Proof.
  intros [Hown Huniq] Hnull. split.
  - intros o m' Hm' Hnn. cbn [objs maps] in *.
    destruct (decide (o = obj)) as [->|Hne].
    + rewrite lookup_insert_eq in Hm'. injection Hm' as <-. done.
    + rewrite lookup_insert_ne in Hm' by done. by apply (Hown o).
  - intros o1 o2 m1 m2 H1 H2 Hnn Heq. cbn [objs] in *.
    destruct (decide (o1 = obj)) as [->|Hne1].
    { rewrite lookup_insert_eq in H1. injection H1 as <-. done. }
    destruct (decide (o2 = obj)) as [->|Hne2].
    { rewrite lookup_insert_eq in H2. injection H2 as <-. congruence. }
    rewrite lookup_insert_ne in H1, H2 by done. by apply (Huniq o1 o2 m1 m2).
Qed.

(** Handing the mapping of [src] over to [dst] and resetting [src]. *)
Lemma invariant_transfer w src dst s ps :
  ownership_invariant w → objs w !! src = Some s → src ≠ dst →
  ownership_invariant
    (mkWorld ps (<[src := moved_from s]> (<[dst := s]> (objs w)))
       (maps w) (heap w) (trace w)).
Proof.
  intros [Hown Huniq] Hs Hne. split.
  - intros o m' Hm' Hnn. cbn [objs maps] in *.
    destruct (decide (o = src)) as [->|Hos].
    { rewrite lookup_insert_eq in Hm'. injection Hm' as <-. done. }
    rewrite lookup_insert_ne in Hm' by done.
    destruct (decide (o = dst)) as [->|Hod].
    { rewrite lookup_insert_eq in Hm'. injection Hm' as <-. by apply (Hown src). }
    rewrite lookup_insert_ne in Hm' by done. by apply (Hown o).
  - assert (Hdst : ∀ o m, o ≠ src → o ≠ dst → objs w !! o = Some m →
                          mBasePtr s ≠ NULL → mBasePtr m ≠ mBasePtr s).
    { intros o m Hos Hod Hm Hnn Heq.
      by specialize (Huniq src o s m Hs Hm Hnn (eq_sym Heq)). }
    intros o1 o2 m1 m2 H1 H2 Hnn Heq. cbn [objs] in *.
    destruct (decide (o1 = src)) as [->|Hne1].
    { rewrite lookup_insert_eq in H1. injection H1 as <-. done. }
    rewrite lookup_insert_ne in H1 by done.
    destruct (decide (o2 = src)) as [->|Hne2].
    { rewrite lookup_insert_eq in H2. injection H2 as <-. cbn in Heq. congruence. }
    rewrite lookup_insert_ne in H2 by done.
    destruct (decide (o1 = dst)) as [->|Hd1], (decide (o2 = dst)) as [->|Hd2];
      try done.
    + rewrite lookup_insert_eq in H1. injection H1 as <-.
      rewrite lookup_insert_ne in H2 by done.
      exfalso. by apply (Hdst o2 m2).
    + rewrite lookup_insert_eq in H2. injection H2 as <-.
      rewrite lookup_insert_ne in H1 by done.
      exfalso. apply (Hdst o1 m1); try done. congruence.
    + rewrite lookup_insert_ne in H1, H2 by done. by apply (Huniq o1 o2 m1 m2).
Qed.

Lemma invariant_delete w obj m ps hp tr (released : bool) :
  ownership_invariant w → objs w !! obj = Some m →
  ownership_invariant
    (mkWorld ps (delete obj (objs w))
       (if released then delete (mBasePtr m) (maps w) else maps w) hp tr).
Proof.
  intros [Hown Huniq] Hm. split.
  - intros o m' Hm' Hnn. cbn [objs maps] in *.
    destruct (decide (o = obj)) as [->|Hne].
    { by rewrite lookup_delete_eq in Hm'. }
    rewrite lookup_delete_ne in Hm' by done.
    destruct released; [|by apply (Hown o)].
    rewrite lookup_delete_ne; [by apply (Hown o)|].
    intros Heq. by specialize (Huniq o obj m' m Hm' Hm Hnn (eq_sym Heq)).
  - intros o1 o2 m1 m2 H1 H2 Hnn Heq. cbn [objs] in *.
    destruct (decide (o1 = obj)) as [->|Hne1].
    { by rewrite lookup_delete_eq in H1. }
    destruct (decide (o2 = obj)) as [->|Hne2].
    { by rewrite lookup_delete_eq in H2. }
    rewrite lookup_delete_ne in H1, H2 by done. by apply (Huniq o1 o2 m1 m2).
Qed.

(** X13: every member function that returns keeps the ownership
    discipline, provided [mmap] hands out an address that is not the start
    of a mapping already live: afterwards, as before, each non-null
    [mBasePtr] is the start of a live mapping of [mBaseLength] bytes and no
    two objects hold the same mapping. *)
Theorem ownership_invariant_is_kept os abi w :
  ownership_invariant w →
  (∀ this indet w',
     FileMap_ctor this indet w = Ret tt w' → ownership_invariant w') ∧
  (∀ this origFileName fd offset length readOnly b w',
     create os abi this origFileName fd offset length readOnly w = Ret b w' →
     (∀ m', b = true → objs w' !! this = Some m' → maps w !! mBasePtr m' = None) →
     ownership_invariant w') ∧
  (∀ this other w',
     FileMap_move_ctor this other w = Ret tt w' → ownership_invariant w') ∧
  (∀ this other w',
     FileMap_move_assign this other w = Ret tt w' → ownership_invariant w') ∧
  (∀ this w',
     FileMap_dtor os this w = Ret tt w' → ownership_invariant w') ∧
  (∀ this advice rc w',
     advise os this advice w = Ret rc w' → ownership_invariant w').
Proof.
  intros Hinv.
  split; [|split; [|split; [|split; [|split]]]].
  - (* constructor *)
    intros this indet w' [= <-]. by apply invariant_insert_unmapped.
  - (* create *)
    intros this origFileName fd offset length readOnly [] w' Hrun Hfresh.
    + destruct (create_true_world _ _ _ _ _ _ _ _ _ _ Hrun)
        as (m & fileName & ptr & adjLength & Hobjs & _ & Hptr & Hlen & Hnn & Hmaps & _).
      assert (Hm : objs w' !! this = Some m) by (rewrite Hobjs; apply lookup_insert_eq).
      specialize (Hfresh m eq_refl Hm). rewrite Hptr in Hfresh.
      destruct Hinv as [Hown Huniq]. split.
      * intros o m' Hm' Hnn'. rewrite Hmaps. rewrite Hobjs in Hm'.
        destruct (decide (o = this)) as [->|Hne].
        { rewrite lookup_insert_eq in Hm'. injection Hm' as <-.
          rewrite Hptr, Hlen. apply lookup_insert_eq. }
        rewrite lookup_insert_ne in Hm' by done.
        rewrite lookup_insert_ne; [by apply (Hown o)|].
        intros Heq. specialize (Hown o m' Hm' Hnn'). congruence.
      * intros o1 o2 m1 m2 H1 H2 Hnn1 Heq. rewrite Hobjs in H1, H2.
        assert (Hother : ∀ o m', o ≠ this → objs w !! o = Some m' →
                                 mBasePtr m' ≠ NULL → mBasePtr m' ≠ ptr).
        { intros o m' _ Hm' Hnn' Heq'. specialize (Hown o m' Hm' Hnn'). congruence. }
        destruct (decide (o1 = this)) as [->|Hne1],
                 (decide (o2 = this)) as [->|Hne2]; try done.
        -- rewrite lookup_insert_eq in H1. injection H1 as <-.
           rewrite lookup_insert_ne in H2 by done.
           exfalso. apply (Hother o2 m2); congruence.
        -- rewrite lookup_insert_eq in H2. injection H2 as <-.
           rewrite lookup_insert_ne in H1 by done.
           exfalso. apply (Hother o1 m1); congruence.
        -- rewrite lookup_insert_ne in H1, H2 by done. by apply (Huniq o1 o2 m1 m2).
    + destruct (create_false_changes_nothing _ _ _ _ _ _ _ _ _ _ Hrun)
        as (Hobjs & Hmaps & _).
      destruct Hinv as [Hown Huniq]. split.
      * intros o m' Hm' Hnn'. rewrite Hmaps. rewrite Hobjs in Hm'. by apply (Hown o).
      * intros o1 o2 m1 m2 H1 H2. rewrite Hobjs in H1, H2. by apply (Huniq o1 o2 m1 m2).
  - (* move constructor *)
    intros this other w' Hrun.
    destruct (objs w !! other) as [s|] eqn:Hs.
    + rewrite (move_ctor_run this other w s Hs) in Hrun. injection Hrun as <-.
      destruct (decide (other = this)) as [->|Hne].
      * rewrite insert_insert_eq. by apply invariant_insert_unmapped.
      * by apply invariant_transfer.
    + unfold FileMap_move_ctor, mbind, M_bind, load in Hrun. by rewrite Hs in Hrun.
  - (* move assignment *)
    intros this other w' Hrun.
    destruct (objs w !! other) as [s|] eqn:Hs.
    + destruct (decide (this = other)) as [->|Hne].
      * rewrite (move_assign_self other w s Hs) in Hrun. injection Hrun as <-.
        by apply invariant_insert_unmapped.
      * destruct (objs w !! this) as [d|] eqn:Hd.
        -- rewrite (move_assign_distinct this other w d s Hne Hd Hs) in Hrun.
           injection Hrun as <-. by apply invariant_transfer.
        -- unfold FileMap_move_assign in Hrun.
           erewrite bind_Ret in Hrun by (by apply load_live).
           unfold mbind, M_bind, store in Hrun. by rewrite Hd in Hrun.
    + unfold FileMap_move_assign, mbind, M_bind, load in Hrun. by rewrite Hs in Hrun.
  - (* destructor *)
    intros this w' Hrun.
    destruct (objs w !! this) as [m|] eqn:Hm.
    + rewrite (dtor_run os this w m Hm) in Hrun. injection Hrun as <-.
      by apply invariant_delete.
    + unfold FileMap_dtor, mbind, M_bind, load in Hrun. by rewrite Hm in Hrun.
  - (* advise *)
    intros this advice rc w' Hrun.
    destruct (sysAdvice_of advice) as [sysAdvice|] eqn:Hadv.
    + destruct (objs w !! this) as [m|] eqn:Hm.
      * destruct (advise_run os this w m advice sysAdvice Hm Hadv)
          as (rc' & w1 & _ & Hrun' & _ & Hobjs & Hmaps & _).
        rewrite Hrun' in Hrun. injection Hrun as _ <-.
        destruct Hinv as [Hown Huniq]. split.
        -- intros o m' Hm' Hnn'. rewrite Hmaps. rewrite Hobjs in Hm'. by apply (Hown o).
        -- intros o1 o2 m1 m2 H1 H2. rewrite Hobjs in H1, H2.
           by apply (Huniq o1 o2 m1 m2).
      * unfold advise in Hrun. rewrite Hadv in Hrun.
        unfold mbind, M_bind, load in Hrun. by rewrite Hm in Hrun.
    + unfold advise in Hrun. by rewrite Hadv in Hrun.
Qed.

(** ** Facts about the [__MINGW32__] build *)
Module Mingw32Facts.
Import Mingw32.

Ltac win_run_all :=
  unfold create, FileMap_dtor, FileMap_move_ctor, FileMap_move_assign,
    FileMap_ctor, c_rem, c_sub_off64, undefined, LOG, emit,
    assert_, sys_GetSystemInfo, sys_get_osfhandle, sys_CreateFileMapping,
    sys_MapViewOfFile, sys_UnmapViewOfFile, sys_CloseHandle, sys_strdup,
    sys_free, read_mPageSize, write_mPageSize, load, store, construct,
    destruct_, mbind, M_bind, mret, M_ret.

Ltac win_cbv :=
  cbv beta iota zeta delta
    [mPageSize objs views handles heap trace negb final_world
     set_mFileName set_mBasePtr set_mBaseLength set_mDataOffset set_mDataPtr
     set_mDataLength set_mFileHandle set_mFileMapping
     mFileName mBasePtr mBaseLength mDataOffset mDataPtr mDataLength
     mFileHandle mFileMapping].

Ltac win_follow :=
  repeat (win_cbv; rewrite ?lookup_insert_eq, ?insert_insert_eq;
          lazymatch goal with
          | |- match ?x with _ => _ end =>
              let s := head_scrutinee x in destruct s eqn:?
          end);
  win_cbv; rewrite ?lookup_insert_eq, ?insert_insert_eq.

(** X14: in this build [create] opens with no assertion on its arguments,
    and its closing [assert(mBasePtr != NULL)] comes after the null view
    has already returned [false]: whatever the arguments and the replies,
    [create] never aborts the process. *)
Theorem mingw32_create_never_aborts
    os abi this origFileName fd offset length readOnly w w' :
  create os abi this origFileName fd offset length readOnly w ≠ Aborted w'.
Proof.
  enough (match create os abi this origFileName fd offset length readOnly w with
          | Aborted _ => False
          | _ => True
          end) as Hrun by (intros Hw; by rewrite Hw in Hrun).
  destruct w as [ps os0 vs hs hp tr].
  win_run_all. win_follow; done.
Qed.

(** X15: a [false] from [create] retains nothing: every handle open
    afterwards was open before, the views and the heap are as before, and
    the object's [mFileMapping] is null.  Unlike in the POSIX build the
    object is written to: [mFileHandle] is overwritten, and [mBasePtr] is
    either untouched or null. *)
Theorem mingw32_create_false_retains_nothing
    os abi this origFileName fd offset length readOnly w w' :
  create os abi this origFileName fd offset length readOnly w = Ret false w' →
  ∃ m m',
    objs w !! this = Some m ∧ objs w' = <[this := m']> (objs w) ∧
    mFileMapping m' = NULL ∧
    (mBasePtr m' = mBasePtr m ∨ mBasePtr m' = NULL) ∧
    mFileName m' = mFileName m ∧ mBaseLength m' = mBaseLength m ∧
    mDataOffset m' = mDataOffset m ∧ mDataPtr m' = mDataPtr m ∧
    mDataLength m' = mDataLength m ∧
    views w' = views w ∧ heap w' = heap w ∧
    (∀ h, is_Some (handles w' !! h) → is_Some (handles w !! h)) ∧
    mPageSize w' = resolved_page_size os w.
Proof.
  enough (match create os abi this origFileName fd offset length readOnly w with
          | Ret false w1 =>
              ∃ m m',
                objs w !! this = Some m ∧ objs w1 = <[this := m']> (objs w) ∧
                mFileMapping m' = NULL ∧
                (mBasePtr m' = mBasePtr m ∨ mBasePtr m' = NULL) ∧
                mFileName m' = mFileName m ∧ mBaseLength m' = mBaseLength m ∧
                mDataOffset m' = mDataOffset m ∧ mDataPtr m' = mDataPtr m ∧
                mDataLength m' = mDataLength m ∧
                views w1 = views w ∧ heap w1 = heap w ∧
                (∀ h, is_Some (handles w1 !! h) → is_Some (handles w !! h)) ∧
                mPageSize w1 = resolved_page_size os w
          | _ => True
          end) as Hrun by (intros Hw; by rewrite Hw in Hrun).
  destruct w as [ps os0 vs hs hp tr].
  unfold resolved_page_size. win_run_all. win_follow; try done.
  all: destruct f; eexists _, _; split; [reflexivity|]; win_cbv.
  all: split; [reflexivity|].
  all: repeat match goal with
       | H : (_ =? NULL) = true |- _ => apply Z.eqb_eq in H
       end.
  all: split; [done|].
  all: split; [first [by left|by right]|].
  all: do 7 (split; [reflexivity|]).
  all: split; [|reflexivity].
  all: intros h; rewrite ?lookup_delete, ?lookup_insert;
    repeat case_decide; try done; by intros [? [=]].
Qed.

Lemma win_outcome_eq {A} (o : Outcome A) (a : A) (w : World) :
  match o with Ret a' w' => a' = a ∧ w' = w | _ => False end → o = Ret a w.
Proof. destruct o; [|done..]. by intros [-> ->]. Qed.








(** The destructor on any live object. *)
Lemma win_dtor_run os this w m :
  objs w !! this = Some m →
  let named := negb (mFileName m =? NULL) in
  let mapped := negb (mBasePtr m =? NULL) in
  let opened := negb (mFileMapping m =? NULL) in
  let t1 := if named then trace w ++ [Free (mFileName m)] else trace w in
  let rc := unmapViewOfFile os t1 (mBasePtr m) in
  let t2 := if mapped
            then t1 ++ UnmapViewOfFile (mBasePtr m) rc
                       :: (if rc =? 0 then [Log (LOGD_UnmapViewOfFile (mBasePtr m))]
                           else [])
            else t1 in
  FileMap_dtor os this w =
    Ret tt (mkWorld (mPageSize w) (delete this (objs w))
              (if mapped && negb (rc =? 0) then delete (mBasePtr m) (views w)
               else views w)
              (if opened then delete (mFileMapping m) (handles w) else handles w)
              (if named then delete (mFileName m) (heap w) else heap w)
              (if opened then t2 ++ [CloseHandle (mFileMapping m)] else t2)).
Proof.
  intros Hm. cbn zeta. apply win_outcome_eq.
  destruct w as [ps os0 vs hs hp tr], m. cbn [objs] in Hm.
  win_run_all. win_cbv. rewrite Hm.
  destruct (mFileName0 =? NULL) eqn:Hn; win_cbv; rewrite Hm;
    destruct (mBasePtr0 =? NULL) eqn:Hb; win_cbv; rewrite ?Hm; win_cbv.
  all: try (destruct (unmapViewOfFile os _ mBasePtr0 =? 0) eqn:Hrc;
            win_cbv; rewrite ?Hm; win_cbv).
  all: destruct (mFileMapping0 =? NULL) eqn:Hf; win_cbv.
  all: rewrite <- ?app_assoc; cbn [app andb]; split; reflexivity.
Qed.

Lemma win_dtor_empty os this w m :
  objs w !! this = Some m →
  mFileName m = NULL → mBasePtr m = NULL → mFileMapping m = NULL →
  dtor_released_nothing os w this.
Proof.
  intros Hm Hn Hb Hf. eexists. split; [by apply win_dtor_run|].
  rewrite Hn, Hb, Hf. cbn [NULL Z.eqb negb andb trace views handles heap objs].
  done.
Qed.

(** X16: after a [create] that returned [false] on an object that held
    nothing, the destructor calls nothing: the handle that a failed
    [MapViewOfFile] made [create] close is not closed a second time. *)
Theorem mingw32_failed_create_then_destroy_is_silent
    os abi this origFileName fd offset length readOnly w w' m :
  create os abi this origFileName fd offset length readOnly w = Ret false w' →
  objs w !! this = Some m →
  mFileName m = NULL → mBasePtr m = NULL →
  dtor_released_nothing os w' this.
Proof.
  intros Hrun Hm Hn Hb.
  destruct (mingw32_create_false_retains_nothing _ _ _ _ _ _ _ _ _ _ Hrun)
    as (m0 & m' & Hm0 & Hobjs & Hf & Hbase & Hname & _).
  rewrite Hm in Hm0. injection Hm0 as <-.
  apply (win_dtor_empty os this w' m').
  - rewrite Hobjs. apply lookup_insert_eq.
  - congruence.
  - destruct Hbase; congruence.
  - exact Hf.
Qed.

(** What a [true] from [create] has added to the world. *)
Lemma win_create_true_world
    os abi this origFileName fd offset length readOnly w w' :
  create os abi this origFileName fd offset length readOnly w = Ret true w' →
  ∃ m',
    objs w' = <[this := m']> (objs w) ∧
    mBasePtr m' ≠ NULL ∧ mFileMapping m' ≠ NULL ∧
    mBaseLength m' = to_size abi
                       (length + to_int (Z.rem offset (resolved_page_size os w))) ∧
    mDataOffset m' = offset ∧ mDataLength m' = length ∧
    mDataPtr m' = ptr_add abi (mBasePtr m')
                    (to_int (Z.rem offset (resolved_page_size os w))) ∧
    views w' = <[mBasePtr m' := mBaseLength m']> (views w) ∧
    handles w' = <[mFileMapping m' := mFileHandle m']> (handles w) ∧
    (heap w' = heap w ∨
     ∃ s, mFileName m' ≠ NULL ∧ heap w' = <[mFileName m' := s]> (heap w)).
Proof.
  enough (match create os abi this origFileName fd offset length readOnly w with
          | Ret true w1 =>
              ∃ m',
                objs w1 = <[this := m']> (objs w) ∧
                mBasePtr m' ≠ NULL ∧ mFileMapping m' ≠ NULL ∧
                mBaseLength m' = to_size abi
                  (length + to_int (Z.rem offset (resolved_page_size os w))) ∧
                mDataOffset m' = offset ∧ mDataLength m' = length ∧
                mDataPtr m' = ptr_add abi (mBasePtr m')
                    (to_int (Z.rem offset (resolved_page_size os w))) ∧
                views w1 = <[mBasePtr m' := mBaseLength m']> (views w) ∧
                handles w1 = <[mFileMapping m' := mFileHandle m']> (handles w) ∧
                (heap w1 = heap w ∨
                 ∃ s, mFileName m' ≠ NULL ∧ heap w1 = <[mFileName m' := s]> (heap w))
          | _ => True
          end) as Hrun by (intros Hw; by rewrite Hw in Hrun).
  destruct w as [ps os0 vs hs hp tr].
  unfold resolved_page_size. win_run_all. win_follow; try done.
  all: eexists; split; [reflexivity|]; win_cbv.
  all: split; [by apply Z.eqb_neq|]; split; [by apply Z.eqb_neq|].
  all: do 6 (split; [reflexivity|]).
  all: try (by left).
  all: match goal with
       | |- (if ?c then _ else _) = _ ∨ _ => destruct c eqn:Hc
       end; [by left|right; eexists; split; [by apply Z.eqb_neq|done]].
Qed.

(** X17: a view made over a fresh handle at a fresh address, and destroyed
    again, leaves the views, the open handles and the heap as they were
    before [create]; the destructor closes one handle, the file mapping,
    and never the file's own handle. *)
Theorem mingw32_create_then_destroy_restores
    os abi this origFileName fd offset length readOnly w w1 m1 :
  create os abi this origFileName fd offset length readOnly w = Ret true w1 →
  objs w1 !! this = Some m1 →
  views w !! mBasePtr m1 = None →
  handles w !! mFileMapping m1 = None →
  heap w !! mFileName m1 = None →
  (∀ t, unmapViewOfFile os t (mBasePtr m1) ≠ 0) →
  ∃ w2 evs,
    FileMap_dtor os this w1 = Ret tt w2 ∧
    views w2 = views w ∧ handles w2 = handles w ∧ heap w2 = heap w ∧
    objs w2 = delete this (objs w) ∧
    trace w2 = trace w1 ++ evs ∧
    List.filter is_CloseHandle evs = [CloseHandle (mFileMapping m1)] ∧
    List.filter is_UnmapViewOfFile evs
      = [UnmapViewOfFile (mBasePtr m1) (unmapViewOfFile os
           (if mFileName m1 =? NULL then trace w1
            else trace w1 ++ [Free (mFileName m1)]) (mBasePtr m1))].
Proof.
  intros Hrun Hm1 Hview Hhandle Hblock Hunmap.
  destruct (win_create_true_world _ _ _ _ _ _ _ _ _ _ Hrun)
    as (m & Hobjs & Hnn & Hfm & _ & _ & _ & _ & Hviews & Hhandles & Hheap).
  assert (m1 = m) as ->.
  { rewrite Hobjs, lookup_insert_eq in Hm1. by injection Hm1. }
  pose proof (win_dtor_run os this w1 m Hm1) as Hd. cbn zeta in Hd.
  apply Z.eqb_neq in Hnn, Hfm. rewrite Hnn, Hfm in Hd. cbn [negb andb] in Hd.
  assert (Hrc : ∀ t, (unmapViewOfFile os t (mBasePtr m) =? 0) = false)
    by (intros t; apply Z.eqb_neq, Hunmap).
  rewrite !Hrc in Hd. cbn [negb] in Hd.
  assert (Hheap' : (if negb (mFileName m =? NULL)
                    then delete (mFileName m) (heap w1) else heap w1) = heap w).
  { destruct (mFileName m =? NULL) eqn:Hn; cbn [negb].
    - destruct Hheap as [->|(s & Hnamed & _)]; [done|].
      by apply Z.eqb_neq in Hnamed; congruence.
    - destruct Hheap as [->|(s & _ & ->)];
        [by apply delete_id|by apply delete_insert_id]. }
  destruct (mFileName m =? NULL) eqn:Hn; cbn [negb] in Hd, Hheap';
    eexists _, _; (split; [exact Hd|]); cbn [views handles heap objs trace];
    (split; [rewrite Hviews; by apply delete_insert_id|]);
    (split; [rewrite Hhandles; by apply delete_insert_id|]);
    (split; [exact Hheap'|]);
    (split; [rewrite Hobjs; apply delete_insert_eq|]);
    (split; [rewrite <- ?app_assoc; cbn [app]; reflexivity|done]).
Qed.


(** X19: the view [create] asks for starts at the low 32 bits of the
    page-aligned offset, with a high half of 0: for an aligned offset of
    4 GiB or more the view does not start at that offset in the file. *)
Theorem mingw32_view_offset_is_truncated
    os abi this origFileName fd offset length (readOnly : bool) w w' evs
    hMap access offHigh offLow len res pageSize :
  final_world (create os abi this origFileName fd offset length readOnly w) = Some w' →
  trace w' = trace w ++ evs →
  In (MapViewOfFile hMap access offHigh offLow len res) evs →
  pageSize = resolved_page_size os w →
  0 < pageSize ≤ 2 ^ 31 → 0 ≤ offset →
  offHigh = 0 ∧
  offLow = (offset - offset `mod` pageSize) `mod` 2 ^ 32 ∧
  (2 ^ 32 ≤ offset - offset `mod` pageSize →
   offLow ≠ offset - offset `mod` pageSize) ∧
  access = (if readOnly then FILE_MAP_READ else FILE_MAP_ALL_ACCESS) ∧
  len = to_size abi (length + offset `mod` pageSize).
Proof.
  enough (match create os abi this origFileName fd offset length readOnly w with
          | Ret _ w1 | Aborted w1 =>
              ∀ evs', trace w1 = trace w ++ evs' →
                In (MapViewOfFile hMap access offHigh offLow len res) evs' →
                0 < resolved_page_size os w ≤ 2 ^ 31 → 0 ≤ offset →
                offHigh = 0 ∧
                offLow = to_DWORD (offset - to_int (Z.rem offset (resolved_page_size os w))) ∧
                access = (if readOnly then FILE_MAP_READ else FILE_MAP_ALL_ACCESS) ∧
                len = to_size abi
                        (length + to_int (Z.rem offset (resolved_page_size os w)))
          | Undef => True
          end) as Hrun.
  { intros Hfin Htr Hin -> Hps Hoff.
    assert (Hint : to_int (Z.rem offset (resolved_page_size os w))
                   = offset `mod` resolved_page_size os w).
    { pose proof (Z.mod_pos_bound offset (resolved_page_size os w) ltac:(lia)).
      rewrite Z.rem_mod_nonneg by lia. unfold to_int. rewrite Z.mod_small; lia. }
    destruct (create os abi this origFileName fd offset length readOnly w);
      cbn in Hfin; [injection Hfin as ->..|done].
    all: destruct (Hrun evs Htr Hin Hps Hoff) as (-> & -> & -> & ->).
    all: rewrite Hint; unfold to_DWORD; repeat split.
    all: intros Hbig Heq;
      pose proof (Z.mod_pos_bound (offset - offset `mod` resolved_page_size os w)
                    (2 ^ 32) ltac:(lia)); lia. }
  destruct w as [ps os0 vs hs hp tr].
  unfold resolved_page_size. win_run_all. cbn [mPageSize trace].
  win_follow; try done.
  all: intros evs' Hevs Hin Hps Hoff; rewrite <- ?app_assoc in Hevs;
    apply (inj (app tr)) in Hevs; subst evs'; cbn [app In] in Hin.
  all: repeat (destruct Hin as [Hin|Hin]; try discriminate Hin; try done).
  all: injection Hin as <- <- <- <- <- <-; done.
Qed.

End Mingw32Facts.

(** ** The further theorems at concrete inputs *)

Lemma create_rejects_bad_arguments_witness :
  (-1 < 0 ∨ 4100 < 0 ∨ 50 ≤ 0) ∧
  create posix_os LP64 0 None (-1) 4100 50 true one_empty_world =
    Aborted (mkWorld (mPageSize one_empty_world) (objs one_empty_world)
               (maps one_empty_world) (heap one_empty_world)
               (trace one_empty_world ++ [AssertionFailed])).
Proof.
  split; [left; lia|].
  apply (create_rejects_bad_arguments posix_os LP64 0 None (-1) 4100 50 true
           one_empty_world).
  left. lia.
Defined.

Lemma create_succeeds_witness :
  objs one_empty_world !! 0%nat = Some (mkFileMap NULL NULL 0 0 NULL 0) ∧
  ∃ w', create posix_os LP64 0 (Some "a.apk"%string) 3 4100 50 true
          one_empty_world = Ret true w' ∧
        objs w' = <[0%nat := mkFileMap 48 69632 54 4100 (ptr_add LP64 69632 4) 50]>
                    (objs one_empty_world) ∧
        maps w' = <[69632 := 54]> (maps one_empty_world) ∧
        heap w' = (if 48 =? NULL then heap one_empty_world
                   else <[48 := "a.apk"%string]> (heap one_empty_world)) ∧
        mPageSize w' = 4096 ∧
        trace w' = trace_after_discovery posix_os one_empty_world
                   ++ [Mmap 54 PROT_READ MAP_SHARED 3 4096 69632]
                   ++ [Strdup "a.apk" 48]
                   ++ [Log (LOGV_map 69632 54 (ptr_add LP64 69632 4) 50)].
Proof.
  split; [vm_compute; reflexivity|].
  apply (create_succeeds posix_os LP64 0 (Some "a.apk"%string) 3 4100 50 true
           one_empty_world (mkFileMap NULL NULL 0 0 NULL 0)
           4096 4 4096 54 PROT_READ 69632 48);
    [vm_compute; reflexivity|lia|lia|lia|reflexivity|lia|lia|reflexivity
    |reflexivity|vm_compute; split; discriminate|reflexivity|reflexivity
    |reflexivity|vm_compute; discriminate|discriminate|reflexivity].
Defined.

Lemma create_false_changes_nothing_witness :
  ∃ w', create no_mapping_os LP64 0 (Some "a.apk"%string) 3 4100 50 true
          one_empty_world = Ret false w' ∧
        objs w' = objs one_empty_world ∧ maps w' = maps one_empty_world ∧
        heap w' = heap one_empty_world ∧
        ((mPageSize one_empty_world = -1 ∧
          sysconf_SC_PAGESIZE no_mapping_os (trace one_empty_world) = -1 ∧
          mPageSize w' = -1 ∧
          trace w' = trace one_empty_world ++ [Sysconf (-1); Log LOGE_pagesize]) ∨
         (∃ len prot off,
            mPageSize w' = resolved_page_size no_mapping_os one_empty_world ∧
            trace w' = trace_after_discovery no_mapping_os one_empty_world
                       ++ [Mmap len prot MAP_SHARED 3 off (MAP_FAILED LP64);
                           Log (LOGE_mmap off len)])).
Proof.
  eexists. split; [vm_compute; reflexivity|].
  apply (create_false_changes_nothing no_mapping_os LP64 0
           (Some "a.apk"%string) 3 4100 50 true one_empty_world).
  vm_compute. reflexivity.
Defined.

Lemma create_keeps_cached_page_size_witness :
  mPageSize two_maps_world ≠ -1 ∧
  ∃ w', final_world (create posix_os LP64 0 None 5 8192 10 true two_maps_world)
        = Some w' ∧
        mPageSize w' = mPageSize two_maps_world ∧
        ∃ evs, trace w' = trace two_maps_world ++ evs ∧
               count_events is_Sysconf evs = 0%nat.
Proof.
  split; [discriminate|].
  eexists. split; [vm_compute; reflexivity|].
  apply (create_keeps_cached_page_size posix_os LP64 0 None 5 8192 10 true
           two_maps_world); [discriminate|vm_compute; reflexivity].
Defined.

Lemma create_calls_witness :
  ∃ w', final_world (create posix_os LP64 0 (Some "a.apk"%string) 3 4100 50 true
                       one_empty_world) = Some w' ∧
        ∃ evs, trace w' = trace one_empty_world ++ evs ∧
               count_events is_release_or_advice evs = 0%nat ∧
               (count_events is_Sysconf evs ≤ 1)%nat ∧
               (count_events is_Mmap evs ≤ 1)%nat ∧
               (count_events is_Strdup evs ≤ 1)%nat.
Proof.
  eexists. split; [vm_compute; reflexivity|].
  apply (create_calls posix_os LP64 0 (Some "a.apk"%string) 3 4100 50 true
           one_empty_world).
  vm_compute. reflexivity.
Defined.

Lemma create_frame_witness :
  ∃ w', final_world (create posix_os LP64 0 None 5 8192 10 true two_maps_world)
        = Some w' ∧
        (∀ obj, obj ≠ 0%nat → objs w' !! obj = objs two_maps_world !! obj) ∧
        (∀ addr, is_Some (maps two_maps_world !! addr) → is_Some (maps w' !! addr)) ∧
        (∀ p, is_Some (heap two_maps_world !! p) → is_Some (heap w' !! p)) ∧
        ∃ evs, trace w' = trace two_maps_world ++ evs ∧
               (∀ addr, ¬ mmap_replied addr evs →
                        maps w' !! addr = maps two_maps_world !! addr) ∧
               (∀ p, ¬ strdup_replied p evs →
                     heap w' !! p = heap two_maps_world !! p).
Proof.
  eexists. split; [vm_compute; reflexivity|].
  apply (create_frame posix_os LP64 0 None 5 8192 10 true two_maps_world).
  vm_compute. reflexivity.
Defined.

Lemma create_maps_from_a_page_boundary_witness :
  ∃ w' evs,
    final_world (create posix_os LP64 0 (Some "a.apk"%string) 3 4100 50 false
                   one_empty_world) = Some w' ∧
    trace w' = trace one_empty_world ++ evs ∧
    In (Mmap 54 3 1 3 4096 69632) evs ∧
    4096 = resolved_page_size posix_os one_empty_world ∧
    0 < 4096 ≤ 2 ^ 31 ∧
    (1 = MAP_SHARED ∧ 3 = 3 ∧
     3 = (if false then 1 else 3) ∧
     4096 `mod` 4096 = 0 ∧ 0 ≤ 4096 ≤ 4100 ∧ 4100 - 4096 < 4096 ∧
     54 = to_size LP64 (50 + (4100 - 4096))).
Proof.
  eexists _, [Sysconf 4096; Mmap 54 3 1 3 4096 69632; Strdup "a.apk" 48;
              Log (LOGV_map 69632 54 69636 50)].
  split; [vm_compute; reflexivity|]. split; [reflexivity|].
  split; [right; left; reflexivity|]. split; [reflexivity|]. split; [lia|].
  eapply (create_maps_from_a_page_boundary posix_os LP64 0 (Some "a.apk"%string)
            3 4100 50 false one_empty_world);
    [vm_compute; reflexivity|reflexivity|right; left; reflexivity
    |reflexivity|lia].
Defined.

Lemma created_region_inside_mapping_witness :
  ∃ w' m',
    create posix_os LP64 0 (Some "a.apk"%string) 3 4100 50 true one_empty_world
      = Ret true w' ∧
    objs w' !! 0%nat = Some m' ∧
    4096 = resolved_page_size posix_os one_empty_world ∧
    0 < 4096 ≤ 2 ^ 31 ∧
    50 + 4100 `mod` 4096 < size_modulus LP64 ∧
    0 ≤ mBasePtr m' ∧ mBasePtr m' + mBaseLength m' ≤ size_modulus LP64 ∧
    (maps w' !! mBasePtr m' = Some (mBaseLength m') ∧
     mBasePtr m' ≤ mDataPtr m' ∧
     mDataPtr m' + mDataLength m' = mBasePtr m' + mBaseLength m' ∧
     mDataLength m' = 50 ∧ 0 < 50 ∧
     mDataPtr m' - mBasePtr m' = 4100 `mod` 4096).
Proof.
  eexists _, (mkFileMap 48 69632 54 4100 69636 50).
  split; [vm_compute; reflexivity|]. split; [vm_compute; reflexivity|].
  split; [reflexivity|]. split; [lia|].
  split; [vm_compute; reflexivity|].
  split; [vm_compute; discriminate|]. split; [vm_compute; discriminate|].
  eapply (created_region_inside_mapping posix_os LP64 0 (Some "a.apk"%string)
            3 4100 50 true one_empty_world);
    [vm_compute; reflexivity|vm_compute; reflexivity|reflexivity|lia
    |vm_compute; reflexivity|vm_compute; discriminate|vm_compute; discriminate].
Defined.

Lemma create_then_destroy_restores_witness :
  ∃ w1 m1,
    create posix_os LP64 0 (Some "a.apk"%string) 3 4100 50 true one_empty_world
      = Ret true w1 ∧
    objs w1 !! 0%nat = Some m1 ∧
    maps one_empty_world !! mBasePtr m1 = None ∧
    heap one_empty_world !! mFileName m1 = None ∧
    (∀ t, munmap posix_os t (mBasePtr m1) (mBaseLength m1) = 0) ∧
    ∃ w2, FileMap_dtor posix_os 0 w1 = Ret tt w2 ∧
          maps w2 = maps one_empty_world ∧ heap w2 = heap one_empty_world ∧
          objs w2 = delete 0%nat (objs one_empty_world) ∧
          mPageSize w2 = mPageSize w1.
Proof.
  eexists _, (mkFileMap 48 69632 54 4100 69636 50).
  split; [vm_compute; reflexivity|]. split; [vm_compute; reflexivity|].
  split; [reflexivity|]. split; [reflexivity|]. split; [reflexivity|].
  eapply (create_then_destroy_restores posix_os LP64 0 (Some "a.apk"%string)
            3 4100 50 true one_empty_world);
    [vm_compute; reflexivity|vm_compute; reflexivity|reflexivity|reflexivity
    |reflexivity].
Defined.

Lemma move_ctor_then_destroy_both_witness :
  objs two_maps_world !! 1%nat = Some object_b ∧
  objs two_maps_world !! 2%nat = None ∧
  ∃ w1 w2 w3,
    FileMap_move_ctor 2 1 two_maps_world = Ret tt w1 ∧
    FileMap_dtor posix_os 1 w1 = Ret tt w2 ∧
    trace w2 = trace two_maps_world ∧
    FileMap_dtor posix_os 2 w2 = Ret tt w3 ∧
    FileMap_dtor posix_os 1 two_maps_world = Ret tt w3.
Proof.
  split; [exact two_maps_object_b|]. split; [vm_compute; reflexivity|].
  apply (move_ctor_then_destroy_both posix_os two_maps_world 1 2 object_b);
    [exact two_maps_object_b|vm_compute; reflexivity].
Defined.

Lemma move_assign_onto_empty_then_destroy_both_witness :
  objs empty_and_mapped_world !! 1%nat = Some object_b ∧
  objs empty_and_mapped_world !! 0%nat = Some (mkFileMap NULL NULL 0 0 NULL 0) ∧
  1%nat ≠ 0%nat ∧
  mFileName (mkFileMap NULL NULL 0 0 NULL 0) = NULL ∧
  mBasePtr (mkFileMap NULL NULL 0 0 NULL 0) = NULL ∧
  ∃ w1 w2 w3,
    FileMap_move_assign 0 1 empty_and_mapped_world = Ret tt w1 ∧
    trace w1 = trace empty_and_mapped_world ∧
    FileMap_dtor posix_os 1 w1 = Ret tt w2 ∧
    trace w2 = trace empty_and_mapped_world ∧
    FileMap_dtor posix_os 0 w2 = Ret tt w3 ∧
    (FileMap_dtor posix_os 0;; FileMap_dtor posix_os 1) empty_and_mapped_world
      = Ret tt w3.
Proof.
  split; [vm_compute; reflexivity|]. split; [vm_compute; reflexivity|].
  split; [discriminate|]. split; [reflexivity|]. split; [reflexivity|].
  apply (move_assign_onto_empty_then_destroy_both posix_os
           empty_and_mapped_world 1 0 object_b (mkFileMap NULL NULL 0 0 NULL 0));
    [vm_compute; reflexivity|vm_compute; reflexivity|discriminate
    |reflexivity|reflexivity].
Defined.

Lemma object_b_is_sole_owner :
  ∀ obj m', objs two_maps_world !! obj = Some m' →
            mBasePtr m' = mBasePtr object_b → obj = 1%nat.
Proof.
  apply (all_objects (λ obj m', mBasePtr m' = mBasePtr object_b → obj = 1%nat)).
  set (l := map_to_list _). vm_compute in l. subst l.
  repeat constructor; cbn; intros [=].
Defined.

Lemma dtor_ignores_munmap_failure_witness :
  objs two_maps_world !! 1%nat = Some object_b ∧
  mBasePtr object_b ≠ NULL ∧
  (∀ t, munmap stuck_mapping_os t (mBasePtr object_b) (mBaseLength object_b) ≠ 0) ∧
  is_Some (maps two_maps_world !! mBasePtr object_b) ∧
  (∀ obj m', objs two_maps_world !! obj = Some m' →
             mBasePtr m' = mBasePtr object_b → obj = 1%nat) ∧
  ∃ w', FileMap_dtor stuck_mapping_os 1 two_maps_world = Ret tt w' ∧
        objs w' = delete 1%nat (objs two_maps_world) ∧
        maps w' = maps two_maps_world ∧
        (∃ evs, trace w' = trace two_maps_world ++ evs ∧
                count_events is_Log evs = 0%nat) ∧
        leaked_mapping w' (mBasePtr object_b).
Proof.
  split; [exact two_maps_object_b|]. split; [discriminate|].
  split; [intros t; discriminate|].
  split; [vm_compute; eexists; reflexivity|].
  split; [exact object_b_is_sole_owner|].
  apply (dtor_ignores_munmap_failure stuck_mapping_os 1 two_maps_world object_b);
    [exact two_maps_object_b|discriminate|intros t; discriminate
    |vm_compute; eexists; reflexivity|exact object_b_is_sole_owner].
Defined.

Lemma two_maps_world_is_well_owned : ownership_invariant two_maps_world.
Proof.
  split.
  - unfold owns_live_mappings.
    refine (all_objects (λ _ m, mBasePtr m ≠ NULL →
              maps two_maps_world !! mBasePtr m = Some (mBaseLength m))
              two_maps_world _).
    set (l := map_to_list _). vm_compute in l. subst l.
    repeat apply Forall_cons_2; [| |apply Forall_nil_2];
      cbn; intros _; vm_compute; reflexivity.
  - unfold no_shared_mapping. intros obj1 obj2 m1 m2 H1 H2. revert obj2 m2 H2.
    revert obj1 m1 H1.
    refine (all_objects (λ obj1 m1, ∀ obj2 m2,
              objs two_maps_world !! obj2 = Some m2 →
              mBasePtr m1 ≠ NULL → mBasePtr m1 = mBasePtr m2 → obj1 = obj2)
              two_maps_world _).
    set (l := map_to_list _). vm_compute in l. subst l.
    repeat apply Forall_cons_2; [| |apply Forall_nil_2].
    + refine (all_objects (λ obj2 m2, mBasePtr object_b ≠ NULL →
                mBasePtr object_b = mBasePtr m2 → 1%nat = obj2) two_maps_world _).
      set (l := map_to_list _). vm_compute in l. subst l.
      repeat apply Forall_cons_2; [| |apply Forall_nil_2]; cbn; intros _ [=].
      reflexivity.
    + refine (all_objects (λ obj2 m2, mBasePtr object_a ≠ NULL →
                mBasePtr object_a = mBasePtr m2 → 0%nat = obj2) two_maps_world _).
      set (l := map_to_list _). vm_compute in l. subst l.
      repeat apply Forall_cons_2; [| |apply Forall_nil_2]; cbn; intros _ [=].
      reflexivity.
Defined.

Lemma ownership_invariant_is_kept_witness :
  ownership_invariant two_maps_world ∧
  (∀ this indet w',
     FileMap_ctor this indet two_maps_world = Ret tt w' → ownership_invariant w') ∧
  (∀ this origFileName fd offset length readOnly b w',
     create posix_os LP64 this origFileName fd offset length readOnly two_maps_world
       = Ret b w' →
     (∀ m', b = true → objs w' !! this = Some m' →
            maps two_maps_world !! mBasePtr m' = None) →
     ownership_invariant w') ∧
  (∀ this other w',
     FileMap_move_ctor this other two_maps_world = Ret tt w' →
     ownership_invariant w') ∧
  (∀ this other w',
     FileMap_move_assign this other two_maps_world = Ret tt w' →
     ownership_invariant w') ∧
  (∀ this w',
     FileMap_dtor posix_os this two_maps_world = Ret tt w' →
     ownership_invariant w') ∧
  (∀ this advice rc w',
     advise posix_os this advice two_maps_world = Ret rc w' →
     ownership_invariant w').
Proof.
  split; [exact two_maps_world_is_well_owned|].
  apply (ownership_invariant_is_kept posix_os LP64 two_maps_world).
  exact two_maps_world_is_well_owned.
Defined.

Lemma mingw32_create_false_retains_nothing_witness :
  ∃ w',
    Mingw32.create no_view_os Mingw32.Win64 0 (Some "a.apk"%string) 3 4100 50 true
      windows_empty_world = Mingw32.Ret false w' ∧
    ∃ m m',
      Mingw32.objs windows_empty_world !! 0%nat = Some m ∧
      Mingw32.objs w' = <[0%nat := m']> (Mingw32.objs windows_empty_world) ∧
      Mingw32.mFileMapping m' = NULL ∧
      (Mingw32.mBasePtr m' = Mingw32.mBasePtr m ∨ Mingw32.mBasePtr m' = NULL) ∧
      Mingw32.mFileName m' = Mingw32.mFileName m ∧
      Mingw32.mBaseLength m' = Mingw32.mBaseLength m ∧
      Mingw32.mDataOffset m' = Mingw32.mDataOffset m ∧
      Mingw32.mDataPtr m' = Mingw32.mDataPtr m ∧
      Mingw32.mDataLength m' = Mingw32.mDataLength m ∧
      Mingw32.views w' = Mingw32.views windows_empty_world ∧
      Mingw32.heap w' = Mingw32.heap windows_empty_world ∧
      (∀ h, is_Some (Mingw32.handles w' !! h) →
            is_Some (Mingw32.handles windows_empty_world !! h)) ∧
      Mingw32.mPageSize w' = Mingw32.resolved_page_size no_view_os windows_empty_world.
Proof.
  eexists. split; [vm_compute; reflexivity|].
  apply (Mingw32Facts.mingw32_create_false_retains_nothing no_view_os Mingw32.Win64
           0 (Some "a.apk"%string) 3 4100 50 true windows_empty_world).
  vm_compute. reflexivity.
Defined.

Lemma mingw32_failed_create_then_destroy_is_silent_witness :
  ∃ w',
    Mingw32.create no_view_os Mingw32.Win64 0 (Some "a.apk"%string) 3 4100 50 true
      windows_empty_world = Mingw32.Ret false w' ∧
    Mingw32.objs windows_empty_world !! 0%nat = Some windows_empty_object ∧
    Mingw32.mFileName windows_empty_object = NULL ∧
    Mingw32.mBasePtr windows_empty_object = NULL ∧
    Mingw32.dtor_released_nothing no_view_os w' 0.
Proof.
  eexists. split; [vm_compute; reflexivity|].
  split; [vm_compute; reflexivity|]. split; [reflexivity|]. split; [reflexivity|].
  apply (Mingw32Facts.mingw32_failed_create_then_destroy_is_silent no_view_os
           Mingw32.Win64 0 (Some "a.apk"%string) 3 4100 50 true
           windows_empty_world _ windows_empty_object);
    [vm_compute; reflexivity|vm_compute; reflexivity|reflexivity|reflexivity].
Defined.

Lemma mingw32_create_then_destroy_restores_witness :
  ∃ w1 m1,
    Mingw32.create windows_os Mingw32.Win64 0 (Some "a.apk"%string) 3 4100 50 true
      windows_empty_world = Mingw32.Ret true w1 ∧
    Mingw32.objs w1 !! 0%nat = Some m1 ∧
    Mingw32.views windows_empty_world !! Mingw32.mBasePtr m1 = None ∧
    Mingw32.handles windows_empty_world !! Mingw32.mFileMapping m1 = None ∧
    Mingw32.heap windows_empty_world !! Mingw32.mFileName m1 = None ∧
    (∀ t, Mingw32.unmapViewOfFile windows_os t (Mingw32.mBasePtr m1) ≠ 0) ∧
    ∃ w2 evs,
      Mingw32.FileMap_dtor windows_os 0 w1 = Mingw32.Ret tt w2 ∧
      Mingw32.views w2 = Mingw32.views windows_empty_world ∧
      Mingw32.handles w2 = Mingw32.handles windows_empty_world ∧
      Mingw32.heap w2 = Mingw32.heap windows_empty_world ∧
      Mingw32.objs w2 = delete 0%nat (Mingw32.objs windows_empty_world) ∧
      Mingw32.trace w2 = Mingw32.trace w1 ++ evs ∧
      List.filter Mingw32.is_CloseHandle evs
        = [Mingw32.CloseHandle (Mingw32.mFileMapping m1)] ∧
      List.filter Mingw32.is_UnmapViewOfFile evs
        = [Mingw32.UnmapViewOfFile (Mingw32.mBasePtr m1)
             (Mingw32.unmapViewOfFile windows_os
                (if Mingw32.mFileName m1 =? NULL then Mingw32.trace w1
                 else Mingw32.trace w1 ++ [Mingw32.Free (Mingw32.mFileName m1)])
                (Mingw32.mBasePtr m1))].
Proof.
  eexists _, windows_object_a.
  split; [vm_compute; reflexivity|]. split; [vm_compute; reflexivity|].
  split; [reflexivity|]. split; [reflexivity|]. split; [reflexivity|].
  split; [intros t; vm_compute; discriminate|].
  eapply (Mingw32Facts.mingw32_create_then_destroy_restores windows_os Mingw32.Win64
            0 (Some "a.apk"%string) 3 4100 50 true windows_empty_world _
            windows_object_a);
    [vm_compute; reflexivity|vm_compute; reflexivity|reflexivity|reflexivity
    |reflexivity|intros t; vm_compute; discriminate].
Defined.


Lemma mingw32_view_offset_is_truncated_witness :
  ∃ w' evs,
    Mingw32.final_world
      (Mingw32.create windows_os Mingw32.Win64 0 (Some "a.apk"%string) 3
         (2 ^ 32 + 65536 + 4) 50 false windows_empty_world) = Some w' ∧
    Mingw32.trace w' = Mingw32.trace windows_empty_world ++ evs ∧
    In (Mingw32.MapViewOfFile 2002 983071 0 65536 54 1245184) evs ∧
    65536 = Mingw32.resolved_page_size windows_os windows_empty_world ∧
    0 < 65536 ≤ 2 ^ 31 ∧ 0 ≤ 2 ^ 32 + 65536 + 4 ∧
    (0 = 0 ∧
     65536 = ((2 ^ 32 + 65536 + 4) - (2 ^ 32 + 65536 + 4) `mod` 65536) `mod` 2 ^ 32 ∧
     (2 ^ 32 ≤ (2 ^ 32 + 65536 + 4) - (2 ^ 32 + 65536 + 4) `mod` 65536 →
      65536 ≠ (2 ^ 32 + 65536 + 4) - (2 ^ 32 + 65536 + 4) `mod` 65536) ∧
     983071 = (if false then Mingw32.FILE_MAP_READ else Mingw32.FILE_MAP_ALL_ACCESS) ∧
     54 = Mingw32.to_size Mingw32.Win64 (50 + (2 ^ 32 + 65536 + 4) `mod` 65536)).
Proof.
  eexists _, [Mingw32.GetSystemInfo 65536; Mingw32.Get_osfhandle 3 1003;
              Mingw32.CreateFileMapping 1003 4 2002;
              Mingw32.MapViewOfFile 2002 983071 0 65536 54 1245184;
              Mingw32.Strdup "a.apk" 80;
              Mingw32.Log (Mingw32.LOGV_map 1245184 54 1245188 50)].
  split; [vm_compute; reflexivity|]. split; [reflexivity|].
  split; [do 3 right; left; reflexivity|]. split; [reflexivity|].
  split; [lia|]. split; [lia|].
  eapply (Mingw32Facts.mingw32_view_offset_is_truncated windows_os Mingw32.Win64 0
            (Some "a.apk"%string) 3 (2 ^ 32 + 65536 + 4) 50 false
            windows_empty_world);
    [vm_compute; reflexivity|reflexivity|do 3 right; left; reflexivity
    |reflexivity|lia|lia].
Defined.
